(** * MealMatch backend ([backend/app.py]): request handlers over a relational store

    A shallow embedding of the Flask handlers of [backend/app.py].

    - Python values that arrive in a JSON body are [pyval]s; truthiness,
      [x or y] and [int(x)] follow Python.
    - The MySQL database is a record of tables (lists of rows, in the
      engine's scan order) with their AUTO_INCREMENT counters.  The
      connection runs with autocommit off, as [mysql.connector] opens it:
      statements are staged and persist at [db.commit()]; a handler that
      leaves through an exception discards the staged rows.
    - A handler is a function from the request, the session cookie and the
      store to an [outcome], the new store and the new session.  The one
      place where SQL leaves the result open, the order of rows with equal
      [ORDER BY] keys, is a relation.
    - Text is a string of bytes, the UTF-8 form of the text.  What
      [str.strip], [str.lower], [int] and SQL [LOWER] make of a text
      depends on the Unicode tables of the platform: they are taken as an
      interface ([Text], [SqlText]), and the ASCII functions of this file
      are one instance of it, used where a handler is run on sample
      data.  SQL comparisons are those of a binary collation. *)

From Stdlib Require Import ZArith QArith List String Ascii Bool Lia.
From Stdlib Require Import Permutation Sorted DecimalString DecimalPos DecimalZ.
Import ListNotations.

#[local] Set Warnings "-register-all".

Local Open Scope Z_scope.
Local Open Scope string_scope.
Local Open Scope list_scope.

(** ** Python values and built-ins *)

Module Py.

(** What [request.get_json] can put in a field.  A float is modelled by
    the rational it denotes (every finite double is one). *)
Inductive pyval : Type :=
| PNone
| PBool (b : bool)
| PInt (z : Z)
| PFloat (q : Q)
| PStr (s : string)
| PList (l : list pyval)
| PDict (d : list (string * pyval)).

(** Exceptions the handlers can leave through. *)
Inductive exn : Type :=
| ValueError
| TypeError
| AttributeError
| OSError.

(** [bool(v)] *)
Definition truthy (v : pyval) : bool :=
  match v with
  | PNone => false
  | PBool b => b
  | PInt z => negb (z =? 0)%Z
  | PFloat q => negb (Qnum q =? 0)%Z
  | PStr s => negb (s =? "")%string
  | PList l => match l with [] => false | _ :: _ => true end
  | PDict d => match d with [] => false | _ :: _ => true end
  end.

(** [a or b] *)
Definition py_or (a b : pyval) : pyval := if truthy a then a else b.

(** [s or d] for an optional string ([None] and [''] are both falsy). *)
Definition str_or (s : option string) (d : string) : string :=
  match s with
  | Some t => if (t =? "")%string then d else t
  | None => d
  end.

(** [form.get(k, d)]: the default is taken only when the key is absent. *)
Definition get_default (s : option string) (d : string) : string :=
  match s with
  | Some t => t
  | None => d
  end.

(** Truth of an optional string, as in [if name:]. *)
Definition str_truthy (s : option string) : bool :=
  match s with
  | Some t => negb (t =? "")%string
  | None => false
  end.

(** The built-ins on text whose result depends on the Unicode tables and
    the limits of the interpreter: [s.strip()], [s.lower()] and [int(s)]
    in base 10 ([None] where [int] raises [ValueError]).  Nothing is
    assumed of them but that the lower-cased empty text is empty. *)
Class Text : Type := {
  strip : string -> string;
  lower : string -> string;
  int_of_str : string -> option Z;
  lower_empty : lower "" = ""
}.

(** [int(v)] *)
Definition py_int `{Text} (v : pyval) : exn + Z :=
  match v with
  | PNone => inl TypeError
  | PBool b => inr (if b then 1 else 0)
  | PInt z => inr z
  | PFloat q => inr (Z.quot (Qnum q) (Zpos (Qden q)))
  | PStr s =>
      match int_of_str s with
      | Some z => inr z
      | None => inl ValueError
      end
  | PList _ => inl TypeError
  | PDict _ => inl TypeError
  end.

(** *** The built-ins on ASCII text

    What the three built-ins do to a text of ASCII characters (for
    [int], to a numeral short enough for the interpreter to convert);
    the bytes of other characters are left as they are. *)

(** The ASCII characters [str.strip()] removes. *)
Definition is_space (c : ascii) : bool :=
  let n := N_of_ascii c in
  (((9 <=? n) && (n <=? 13)) || ((28 <=? n) && (n <=? 32)))%N.

(** The ASCII characters [int()] skips around a numeral. *)
Definition is_int_space (c : ascii) : bool :=
  let n := N_of_ascii c in
  (((9 <=? n) && (n <=? 13)) || (n =? 32))%N.

Definition lower_ascii (c : ascii) : ascii :=
  let n := N_of_ascii c in
  if ((65 <=? n) && (n <=? 90))%N then ascii_of_N (n + 32) else c.

Fixpoint ascii_lower (s : string) : string :=
  match s with
  | EmptyString => EmptyString
  | String c s' => String (lower_ascii c) (ascii_lower s')
  end.

Fixpoint lstrip (space : ascii -> bool) (s : string) : string :=
  match s with
  | EmptyString => EmptyString
  | String c s' => if space c then lstrip space s' else s
  end.

Fixpoint rstrip (space : ascii -> bool) (s : string) : string :=
  match s with
  | EmptyString => EmptyString
  | String c s' =>
      match rstrip space s' with
      | EmptyString => if space c then EmptyString else String c EmptyString
      | r => String c r
      end
  end.

Definition ascii_strip (s : string) : string := rstrip is_space (lstrip is_space s).

Definition digit_of (c : ascii) : option Z :=
  let n := N_of_ascii c in
  if ((48 <=? n) && (n <=? 57))%N then Some (Z.of_N n - 48) else None.

(** The digits of an integer literal: at least one digit, single
    underscores allowed between digits. [after_digit] tells whether the
    previous character was a digit. *)
Fixpoint digits (acc : Z) (after_digit : bool) (s : string) : option Z :=
  match s with
  | EmptyString => if after_digit then Some acc else None
  | String c s' =>
      match digit_of c with
      | Some d => digits (10 * acc + d) true s'
      | None =>
          if (Ascii.eqb c "_" && after_digit)%bool
          then digits acc false s'
          else None
      end
  end.

(** Surrounding white space, an optional sign, then the digits. *)
Definition ascii_int_of_str (s : string) : option Z :=
  match rstrip is_int_space (lstrip is_int_space s) with
  | String "-" t => option_map Z.opp (digits 0 false t)
  | String "+" t => digits 0 false t
  | t => digits 0 false t
  end.

(** [str(int(z))] in decimal, as an f-string prints it. *)
Definition str_of_int (z : Z) : string := NilZero.string_of_int (Z.to_int z).

End Py.

(** ** The store *)

Module Db.
Import Py.

(** SQL [LOWER(text)], which follows the character set of the column. *)
Class SqlText : Type := {
  sql_lower : string -> string
}.

(** A DECIMAL amount. *)
Definition price : Type := Q.

Record user : Type := mk_user {
  u_id : Z;
  u_name : string;
  u_email : string;
  u_password_hash : string;
  u_role : string;
  u_photo_url : option string
}.

Record restaurant : Type := mk_restaurant {
  r_id : Z;
  r_owner_id : Z;
  r_name : string;
  r_area : string;
  r_cuisine : string;
  r_price_level : string;
  r_halal : bool;
  r_image_url : option string
}.

Record menu_item : Type := mk_menu_item {
  m_id : Z;
  m_restaurant_id : Z;
  m_name : string;
  m_price : price;
  m_old_price : option price;
  m_discount : option price;
  m_image_url : option string
}.

Record order : Type := mk_order {
  o_id : Z;
  o_user_id : Z;
  o_status : string;
  o_created_at : Z
}.

Record order_item : Type := mk_order_item {
  oi_order_id : Z;
  oi_menu_item_id : Z;
  oi_quantity : Z;
  oi_price : price
}.

(** The tables, each in the engine's scan order, and the AUTO_INCREMENT
    counters of the tables the handlers insert into and read
    [lastrowid] from. *)
Record database : Type := mk_database {
  users : list user;
  restaurants : list restaurant;
  menu_items : list menu_item;
  orders : list order;
  order_items : list order_item;
  users_auto_inc : Z;
  restaurants_auto_inc : Z;
  orders_auto_inc : Z
}.

Definition with_users (d : database) (us : list user) : database :=
  mk_database us (restaurants d) (menu_items d) (orders d) (order_items d)
    (users_auto_inc d) (restaurants_auto_inc d) (orders_auto_inc d).

Definition with_menu_items (d : database) (ms : list menu_item) : database :=
  mk_database (users d) (restaurants d) ms (orders d) (order_items d)
    (users_auto_inc d) (restaurants_auto_inc d) (orders_auto_inc d).

(** What is left of a transaction that is not committed: the rows of
    [committed]; the counters stay where the staged inserts left them. *)
Definition rollback (committed staged : database) : database :=
  mk_database (users committed) (restaurants committed)
    (menu_items committed) (orders committed) (order_items committed)
    (users_auto_inc staged) (restaurants_auto_inc staged)
    (orders_auto_inc staged).

(** [SELECT ... FROM users WHERE email=%s] followed by [fetchone()] *)
Definition select_user_by_email (d : database) (email : string) : option user :=
  find (fun u => (u_email u =? email)%string) (users d).

(** [SELECT ... FROM users WHERE id=%s] followed by [fetchone()] *)
Definition select_user_by_id (d : database) (uid : Z) : option user :=
  find (fun u => (u_id u =? uid)%Z) (users d).

(** [INSERT INTO users(name,email,password_hash,role,photo_url)]; the
    second component is [cur.lastrowid]. *)
Definition insert_user (d : database) (name email hash role : string)
    (photo_url : option string) : database * Z :=
  let id := users_auto_inc d in
  (mk_database (users d ++ [mk_user id name email hash role photo_url])
     (restaurants d) (menu_items d) (orders d) (order_items d)
     (id + 1) (restaurants_auto_inc d) (orders_auto_inc d),
   id).

(** [UPDATE users SET <column>=%s WHERE id=%s], one definition per column
    the profile handler writes. *)
Definition update_user_name (d : database) (uid : Z) (name : string) : database :=
  with_users d
    (map (fun u =>
            if (u_id u =? uid)%Z
            then mk_user (u_id u) name (u_email u) (u_password_hash u)
                   (u_role u) (u_photo_url u)
            else u) (users d)).

Definition update_user_password_hash (d : database) (uid : Z) (hash : string)
    : database :=
  with_users d
    (map (fun u =>
            if (u_id u =? uid)%Z
            then mk_user (u_id u) (u_name u) (u_email u) hash
                   (u_role u) (u_photo_url u)
            else u) (users d)).

Definition update_user_photo_url (d : database) (uid : Z) (photo_url : string)
    : database :=
  with_users d
    (map (fun u =>
            if (u_id u =? uid)%Z
            then mk_user (u_id u) (u_name u) (u_email u) (u_password_hash u)
                   (u_role u) (Some photo_url)
            else u) (users d)).

(** [INSERT INTO restaurants(owner_id,name,area,cuisine,price_level,halal,image_url)] *)
Definition insert_restaurant (d : database) (owner_id : Z)
    (name area cuisine price_level : string) (halal : bool)
    (image_url : option string) : database * Z :=
  let id := restaurants_auto_inc d in
  (mk_database (users d)
     (restaurants d ++
        [mk_restaurant id owner_id name area cuisine price_level halal image_url])
     (menu_items d) (orders d) (order_items d)
     (users_auto_inc d) (id + 1) (orders_auto_inc d),
   id).

(** [SELECT price FROM menu_items WHERE id=%s] followed by [fetchone()]:
    [row[0]] when there is a row. *)
Definition select_price (d : database) (mid : Z) : option price :=
  option_map m_price (find (fun m => (m_id m =? mid)%Z) (menu_items d)).

(** [INSERT INTO orders(user_id,status,created_at) VALUES(%s,%s,NOW())] *)
Definition insert_order (d : database) (user_id : Z) (status : string)
    (now : Z) : database * Z :=
  let id := orders_auto_inc d in
  (mk_database (users d) (restaurants d) (menu_items d)
     (orders d ++ [mk_order id user_id status now]) (order_items d)
     (users_auto_inc d) (restaurants_auto_inc d) (id + 1),
   id).

(** [INSERT INTO order_items(order_id,menu_item_id,quantity,price)] *)
Definition insert_order_item (d : database) (row : order_item) : database :=
  mk_database (users d) (restaurants d) (menu_items d) (orders d)
    (order_items d ++ [row])
    (users_auto_inc d) (restaurants_auto_inc d) (orders_auto_inc d).

(** [UPDATE menu_items SET price=%s WHERE id=%s].  No handler of
    [app.py] issues it; it stands for a later change of a menu price by
    whoever maintains the menu. *)
Definition update_menu_price (d : database) (mid : Z) (p : price) : database :=
  with_menu_items d
    (map (fun m =>
            if (m_id m =? mid)%Z
            then mk_menu_item (m_id m) (m_restaurant_id m) (m_name m) p
                   (m_old_price m) (m_discount m) (m_image_url m)
            else m) (menu_items d)).

(** SQL [text LIKE pattern]: [%] is any run of characters, [_] any one
    character, a backslash makes the next pattern character literal. *)
Fixpoint like (pattern text : string) {struct pattern} : bool :=
  match pattern with
  | EmptyString =>
      match text with EmptyString => true | String _ _ => false end
  | String c rest =>
      if Ascii.eqb c "%" then
        (fix any (t : string) : bool :=
           like rest t
           || match t with
              | EmptyString => false
              | String _ t' => any t'
              end) text
      else if Ascii.eqb c "_" then
        match text with
        | EmptyString => false
        | String _ t' => like rest t'
        end
      else if Ascii.eqb c "\" then
        match rest with
        | EmptyString =>
            match text with
            | String x EmptyString => Ascii.eqb x "\"
            | _ => false
            end
        | String e rest' =>
            match text with
            | EmptyString => false
            | String x t' => Ascii.eqb e x && like rest' t'
            end
        end
      else
        match text with
        | EmptyString => false
        | String x t' => Ascii.eqb c x && like rest t'
        end
  end.

(** The conditions [list_restaurants] can put after [WHERE], each with
    its parameter. *)
Inductive clause : Type :=
| NameLike (pattern : string)   (* LOWER(name) LIKE %s *)
| AreaEq (area : string)        (* area=%s *)
| HalalEq (flag : bool)         (* halal=%s *)
| CuisineEq (cuisine : string)  (* cuisine=%s *)
| PriceLevelEq (level : string) (* price_level=%s *).

Definition clause_holds `{SqlText} (c : clause) (r : restaurant) : bool :=
  match c with
  | NameLike pattern => like pattern (sql_lower (r_name r))
  | AreaEq area => (r_area r =? area)%string
  | HalalEq flag => Bool.eqb (r_halal r) flag
  | CuisineEq cuisine => (r_cuisine r =? cuisine)%string
  | PriceLevelEq level => (r_price_level r =? level)%string
  end.

(** [SELECT ... FROM restaurants WHERE c1 AND ... AND cn], before the
    rows are ordered; no [WHERE] when there is no clause. *)
Definition select_restaurants `{SqlText} (d : database) (clauses : list clause)
    : list restaurant :=
  filter (fun r => forallb (fun c => clause_holds c r) clauses) (restaurants d).

(** [ORDER BY name]: the rows come back in ascending order of [name].
    SQL does not say in which order rows with equal names come, so the
    result is any arrangement of the rows that is sorted. *)
Definition name_le (a b : restaurant) : Prop :=
  String.leb (r_name a) (r_name b) = true.

Definition order_by_name (rows result : list restaurant) : Prop :=
  Permutation rows result /\ Sorted name_le result.

(** One arrangement the engine may return: insertion into the sorted
    rows, before the first row with a greater or equal name. *)
Fixpoint insert_by_name (r : restaurant) (sorted : list restaurant)
    : list restaurant :=
  match sorted with
  | [] => [r]
  | x :: rest =>
      if String.leb (r_name r) (r_name x)
      then r :: sorted
      else x :: insert_by_name r rest
  end.

Definition sort_by_name (rows : list restaurant) : list restaurant :=
  fold_right insert_by_name [] rows.

End Db.

(** ** The handlers *)

Module App.
Import Py Db.

(** [werkzeug.security]: the two hashing primitives, known by their
    interface only.  [generate_password_hash] draws a fresh salt, which
    is passed in.  [check_password_hash] is handed whatever the request
    carried as password, and may raise on it. *)
Class PasswordHasher : Type := {
  generate_password_hash : string -> string -> string;
  check_password_hash : string -> pyval -> exn + bool
}.

(** What a handler reads from its surroundings: the clock behind
    [datetime.utcnow().timestamp()], the database's [NOW()], the salt of
    the next hash, and the file system under [UPLOAD_DIR]: whether a file
    of the given name can be opened there for writing. *)
Record env : Type := mk_env {
  utc_timestamp : Z;
  sql_now : Z;
  salt : string;
  writable : string -> bool
}.

(** The persistent state: the database and the files written under
    [UPLOAD_DIR], oldest first. *)
Record world : Type := mk_world {
  db : database;
  uploads : list string
}.

(** The Flask session: the value under ['uid'], when there is one. *)
Definition session : Type := option Z.

(** A handler returns a response, or leaves through an exception (which
    Flask answers with status 500). *)
Inductive outcome : Type :=
| Response (status : Z) (body : pyval)
| Raised (e : exn).

Definition error (message : string) : pyval := PDict [("error", PStr message)].

Definition ok : pyval := PDict [("ok", PBool true)].

(** [uid = session.get('uid')] followed by [if not uid]: [None] stands
    for the branch taken when [uid] is missing or falsy. *)
Definition session_uid (s : session) : option Z :=
  match s with
  | Some uid => if (uid =? 0)%Z then None else Some uid
  | None => None
  end.

(** The upload block shared by [register] and [profile]: the file is
    written when a photo with a non-empty filename is sent; the result
    is [photo_url] and the files under [UPLOAD_DIR]. *)
Definition save_photo (e : env) (photo : option string) (files : list string)
    : option string * list string :=
  match photo with
  | Some filename =>
      if (filename =? "")%string then (None, files)
      else
        let safe_name :=
          (str_of_int (utc_timestamp e) ++ "_" ++ filename)%string in
        (Some ("/uploads/" ++ safe_name)%string, files ++ [safe_name])
  | None => (None, files)
  end.

(** [photo.save(save_path)] raises when the file cannot be opened; no
    file is written then. *)
Definition photo_save_fails (e : env) (photo : option string) : bool :=
  match photo with
  | Some filename =>
      if (filename =? "")%string then false
      else negb (writable e (str_of_int (utc_timestamp e) ++ "_" ++ filename)%string)
  | None => false
  end.

(** *** POST /api/auth/register *)

Record register_form : Type := mk_register_form {
  rf_name : option string;
  rf_email : option string;
  rf_password : option string;
  rf_role : option string;
  rf_photo : option string
}.

Definition register `{Text} `{PasswordHasher} (e : env) (w : world) (s : session)
    (f : register_form) : outcome * world * session :=
  let name := strip (get_default (rf_name f) "") in
  let email := lower (strip (get_default (rf_email f) "")) in
  let password := get_default (rf_password f) "" in
  let role := get_default (rf_role f) "customer" in
  if ((name =? "")%string || (email =? "")%string || (password =? "")%string
      || negb ((role =? "customer")%string || (role =? "owner")%string))%bool
  then (Response 400 (error "Invalid data"), w, s)
  else if photo_save_fails e (rf_photo f)
  then (Raised OSError, w, s)
  else
    let '(photo_url, files) := save_photo e (rf_photo f) (uploads w) in
    match select_user_by_email (db w) email with
    | Some _ =>
        (Response 409 (error "Email already registered"),
         mk_world (db w) files, s)
    | None =>
        let '(d, user_id) :=
          insert_user (db w) name email
            (generate_password_hash (salt e) password) role photo_url in
        (Response 200 ok, mk_world d files, Some user_id)
    end.

(** *** POST /api/auth/login *)

(** The JSON body, an object (or nothing, or a falsy value, which the
    handler replaces by [{}]): [data.get('email')] and
    [data.get('password')], of whatever JSON type the client sent
    ([PNone] when the key is absent). *)
Record login_data : Type := mk_login_data {
  ld_email : pyval;
  ld_password : pyval
}.

(** [(data.get('email') or '').strip().lower()]: only a string has
    [strip]. *)
Definition login_email `{Text} (data : login_data) : exn + string :=
  match py_or (ld_email data) (PStr "") with
  | PStr t => inr (lower (strip t))
  | _ => inl AttributeError
  end.

Definition login `{Text} `{PasswordHasher} (w : world) (s : session)
    (data : login_data) : outcome * world * session :=
  match login_email data with
  | inl ex => (Raised ex, w, s)
  | inr email =>
      let password := py_or (ld_password data) (PStr "") in
      match select_user_by_email (db w) email with
      | None => (Response 401 (error "Invalid email or password"), w, s)
      | Some row =>
          match check_password_hash (u_password_hash row) password with
          | inl ex => (Raised ex, w, s)
          | inr verified =>
              if negb verified
              then (Response 401 (error "Invalid email or password"), w, s)
              else (Response 200 ok, w, Some (u_id row))
          end
      end
  end.

(** *** PUT /api/profile *)

Record profile_form : Type := mk_profile_form {
  pf_name : option string;
  pf_password : option string;
  pf_photo : option string
}.

Definition opt_str (o : option string) : pyval :=
  match o with
  | Some t => PStr t
  | None => PNone
  end.

Definition profile_put `{PasswordHasher} (e : env) (w : world) (s : session)
    (f : profile_form) : outcome * world * session :=
  match session_uid s with
  | None => (Response 401 (error "Not authenticated"), w, s)
  | Some uid =>
      if photo_save_fails e (pf_photo f) then (Raised OSError, w, s)
      else
        let '(photo_url, files) := save_photo e (pf_photo f) (uploads w) in
        let d1 :=
          if str_truthy (pf_name f)
          then update_user_name (db w) uid (get_default (pf_name f) "")
          else db w in
        let d2 :=
          if str_truthy (pf_password f)
          then update_user_password_hash d1 uid
                 (generate_password_hash (salt e)
                    (get_default (pf_password f) ""))
          else d1 in
        let d3 :=
          match photo_url with
          | Some url => update_user_photo_url d2 uid url
          | None => d2
          end in
        (Response 200 (PDict [("ok", PBool true); ("photo_url", opt_str photo_url)]),
         mk_world d3 files, s)
  end.

(** *** POST /api/owner/restaurants *)

Record restaurant_data : Type := mk_restaurant_data {
  rd_name : option string;
  rd_area : option string;
  rd_cuisine : option string;
  rd_price_level : option string;
  rd_halal : pyval;
  rd_image_url : option string
}.

(** The default price level, one yen sign. *)
Definition yen : string := String (ascii_of_N 194) (String (ascii_of_N 165) "").

Definition owner_add_restaurant `{Text} (w : world) (s : session)
    (data : restaurant_data) : outcome * world * session :=
  match session_uid s with
  | None => (Response 401 (error "Not authenticated"), w, s)
  | Some uid =>
      match select_user_by_id (db w) uid with
      | None => (Response 403 (error "Owner role required"), w, s)
      | Some row =>
          if negb (u_role row =? "owner")%string
          then (Response 403 (error "Owner role required"), w, s)
          else
            let name := strip (str_or (rd_name data) "") in
            let area := strip (str_or (rd_area data) "") in
            let cuisine := strip (str_or (rd_cuisine data) "") in
            let price_level := strip (str_or (rd_price_level data) yen) in
            let halal := truthy (rd_halal data) in
            let image_url := rd_image_url data in
            if (name =? "")%string
            then (Response 400 (error "Name required"), w, s)
            else
              let '(d, id) :=
                insert_restaurant (db w) uid name area cuisine price_level
                  halal image_url in
              (Response 200 (PDict [("ok", PBool true); ("restaurant_id", PInt id)]),
               mk_world d (uploads w), s)
      end
  end.

(** *** GET /api/restaurants *)

Record search_args : Type := mk_search_args {
  sa_q : option string;
  sa_area : option string;
  sa_cuisine : option string;
  sa_price : option string
}.

(** [if v and v != sentinel] *)
Definition given (v : option string) (sentinel : string) : bool :=
  (str_truthy v && negb (get_default v "" =? sentinel)%string)%bool.

(** The [clauses] list with its [params], in the order the handler
    appends them. *)
Definition search_clauses `{Text} (a : search_args) : list clause :=
  let q := lower (strip (str_or (sa_q a) "")) in
  (if negb (q =? "")%string then [NameLike ("%" ++ q ++ "%")%string] else [])
  ++ (if given (sa_area a) "All Areas"
      then [AreaEq (get_default (sa_area a) "")] else [])
  ++ (if given (sa_cuisine a) "All Cuisines"
      then
        if (get_default (sa_cuisine a) "" =? "Halal")%string
        then [HalalEq true]
        else [CuisineEq (get_default (sa_cuisine a) "")]
      else [])
  ++ (if given (sa_price a) "All Prices"
      then [PriceLevelEq (get_default (sa_price a) "")] else []).

(** The rows [cur.fetchall()] returns, in their order. *)
Definition list_restaurants_rows `{Text} `{SqlText} (w : world) (a : search_args)
    (rows : list restaurant) : Prop :=
  order_by_name (select_restaurants (db w) (search_clauses a)) rows.

(** A row as the dictionary cursor gives it: the selected columns. *)
Definition restaurant_row (r : restaurant) : pyval :=
  PDict [("id", PInt (r_id r)); ("name", PStr (r_name r));
         ("area", PStr (r_area r)); ("cuisine", PStr (r_cuisine r));
         ("price_level", PStr (r_price_level r)); ("halal", PBool (r_halal r));
         ("image_url", opt_str (r_image_url r))].

Definition list_restaurants `{Text} `{SqlText} (w : world) (a : search_args) (out : outcome) : Prop :=
  exists rows,
    list_restaurants_rows w a rows
    /\ out = Response 200 (PDict [("restaurants", PList (map restaurant_row rows))]).

(** *** POST /api/orders *)

(** One entry of [items]: [it.get('menu_item_id')], an id or [None], and
    [it.get('quantity')], whatever the client sent ([PNone] when the key
    is absent). *)
Record line : Type := mk_line {
  menu_item_id : option Z;
  quantity : pyval
}.

Record order_data : Type := mk_order_data {
  od_restaurant_id : pyval;
  od_items : list line
}.

(** The body of [for it in items], over the staged database. *)
Fixpoint add_order_items `{Text} (order_id : Z) (items : list line) (d : database)
    : exn + database :=
  match items with
  | [] => inr d
  | it :: rest =>
      let mid := menu_item_id it in
      match py_int (py_or (quantity it) (PInt 1)) with
      | inl ex => inl ex
      | inr qty =>
          match mid with
          | None => add_order_items order_id rest d
          | Some id =>
              match select_price d id with
              | None => add_order_items order_id rest d
              | Some p =>
                  add_order_items order_id rest
                    (insert_order_item d (mk_order_item order_id id qty p))
              end
          end
      end
  end.

Definition orders_post `{Text} (e : env) (w : world) (s : session)
    (data : order_data) : outcome * world * session :=
  match session_uid s with
  | None => (Response 401 (error "Not authenticated"), w, s)
  | Some uid =>
      match od_items data with
      | [] => (Response 400 (error "No items"), w, s)
      | items =>
          let '(d1, order_id) :=
            insert_order (db w) uid "pending" (sql_now e) in
          match add_order_items order_id items d1 with
          | inl ex => (Raised ex, mk_world (rollback (db w) d1) (uploads w), s)
          | inr d2 =>
              (Response 200 (PDict [("ok", PBool true); ("order_id", PInt order_id)]),
               mk_world d2 (uploads w), s)
          end
      end
  end.

End App.

(** ** Vocabulary of the properties *)

Module Props.
Import Py Db App.

Definition outcome_of (r : outcome * world * session) : outcome := fst (fst r).
Definition world_of (r : outcome * world * session) : world := snd (fst r).
Definition session_of (r : outcome * world * session) : session := snd r.

(** The database with another [order_items] table. *)
Definition with_order_items (d : database) (rows : list order_item) : database :=
  mk_database (users d) (restaurants d) (menu_items d) (orders d) rows
    (users_auto_inc d) (restaurants_auto_inc d) (orders_auto_inc d).

(** The quantity the loop computes for a line: [int(it.get('quantity') or 1)]. *)
Definition coerced_quantity `{Text} (it : line) : exn + Z :=
  py_int (py_or (quantity it) (PInt 1)).

Definition coerces `{Text} (it : line) : Prop :=
  exists qty, coerced_quantity it = inr qty.

(** The price the loop finds for a line, if its menu item exists. *)
Definition line_price (d : database) (it : line) : option price :=
  match menu_item_id it with
  | Some id => select_price d id
  | None => None
  end.

(** The lines whose menu item exists, in request order. *)
Definition surviving (d : database) (items : list line) : list line :=
  filter (fun it => match line_price d it with Some _ => true | None => false end)
    items.

(** [row] is the order-item row of line [it] in order [order_id], priced
    from the menu of [d]. *)
Definition row_of_line `{Text} (d : database) (order_id : Z) (it : line)
    (row : order_item) : Prop :=
  oi_order_id row = order_id
  /\ menu_item_id it = Some (oi_menu_item_id row)
  /\ coerced_quantity it = inr (oi_quantity row)
  /\ line_price d it = Some (oi_price row).

(** Later changes of menu prices, applied in order. *)
Definition apply_price_changes (d : database) (changes : list (Z * price))
    : database :=
  fold_left (fun acc c => update_menu_price acc (fst c) (snd c)) changes d.

(** What [check_password_hash] is called with. *)
Definition login_password (data : login_data) : pyval :=
  py_or (ld_password data) (PStr "").

(** The ways a login does not succeed: no user has the email; the user's
    hash does not verify the password; the verification raises. *)
Definition unknown_email `{Text} (w : world) (data : login_data) : Prop :=
  exists email,
    login_email data = inr email
    /\ select_user_by_email (db w) email = None.

Definition wrong_password `{Text} `{PasswordHasher} (w : world) (data : login_data)
    : Prop :=
  exists email row,
    login_email data = inr email
    /\ select_user_by_email (db w) email = Some row
    /\ check_password_hash (u_password_hash row) (login_password data) = inr false.

Definition verification_raises `{Text} `{PasswordHasher} (w : world)
    (data : login_data) (ex : exn) : Prop :=
  exists email row,
    login_email data = inr email
    /\ select_user_by_email (db w) email = Some row
    /\ check_password_hash (u_password_hash row) (login_password data) = inl ex.

Definition login_refused : pyval := error "Invalid email or password".

(** The filters of a search other than the cuisine filter. *)
Definition without_cuisine (a : search_args) : search_args :=
  mk_search_args (sa_q a) (sa_area a) None (sa_price a).

Definition other_filters `{Text} `{SqlText} (a : search_args) (r : restaurant) : bool :=
  forallb (fun c => clause_holds c r) (search_clauses (without_cuisine a)).

(** The fields of a registration other than the email pass the check of
    the handler. *)
Definition acceptable_fields `{Text} (f : register_form) : Prop :=
  strip (get_default (rf_name f) "") <> ""
  /\ get_default (rf_password f) "" <> ""
  /\ (get_default (rf_role f) "customer" = "customer"
      \/ get_default (rf_role f) "customer" = "owner").

(** What a profile update may change in a user row: nothing for another
    user, and for the caller only the columns sent with a non-empty
    value. *)
Definition profile_frame (uid : Z) (f : profile_form) (u u' : user) : Prop :=
  u_id u' = u_id u
  /\ u_email u' = u_email u
  /\ u_role u' = u_role u
  /\ (str_truthy (pf_name f) = false -> u_name u' = u_name u)
  /\ (str_truthy (pf_password f) = false ->
      u_password_hash u' = u_password_hash u)
  /\ (str_truthy (pf_photo f) = false -> u_photo_url u' = u_photo_url u)
  /\ (u_id u <> uid -> u' = u).

End Props.

(** ** Sample data *)

Module Samples.
Import Py Db App Props.

(** The built-ins on ASCII text, for the samples. *)
#[export] Instance ascii_text : Text := {
  strip := ascii_strip;
  lower := ascii_lower;
  int_of_str := ascii_int_of_str;
  lower_empty := eq_refl
}.

#[export] Instance ascii_sql_text : SqlText := {
  sql_lower := ascii_lower
}.

(** A stand-in for the hashing primitives: the hash is the salt, a
    dollar sign and the password; a password that is not a string has no
    bytes to hash. *)
Definition toy_check (hash : string) (password : pyval) : exn + bool :=
  match password with
  | PStr text =>
      match index 0 "$" hash with
      | Some n =>
          inr (substring (S n) (String.length hash - S n) hash =? text)%string
      | None => inr false
      end
  | _ => inl AttributeError
  end.

#[export] Instance toy_hasher : PasswordHasher := {
  generate_password_hash salt password := (salt ++ "$" ++ password)%string;
  check_password_hash := toy_check
}.

(** A flat upload directory: a name with a slash has no directory to go
    to. *)
Fixpoint no_slash (name : string) : bool :=
  match name with
  | EmptyString => true
  | String c rest => negb (Ascii.eqb c "/") && no_slash rest
  end.

Definition env0 : env := mk_env 1700000000 1700000000 "na" no_slash.

Definition alice : user :=
  mk_user 1 "Alice" "alice@example.com" "na$secret" "customer" None.

Definition bob : user :=
  mk_user 2 "Bob" "bob@example.com" "na$hunter2" "owner" None.

Definition ramen : menu_item := mk_menu_item 1 1 "Ramen" (900 # 1) None None None.

Definition gyoza : menu_item := mk_menu_item 2 1 "Gyoza" (450 # 1) None None None.

Definition sakura_shibuya : restaurant :=
  mk_restaurant 1 2 "Sakura" "Shibuya" "Japanese" yen true None.

Definition sakura_osaka : restaurant :=
  mk_restaurant 2 2 "Sakura" "Osaka" "Japanese" yen true None.

Definition trattoria : restaurant :=
  mk_restaurant 3 2 "Trattoria" "Osaka" "Italian" yen false None.

Definition db0 : database :=
  mk_database [alice; bob] [sakura_shibuya; sakura_osaka; trattoria]
    [ramen; gyoza] [] [] 3 4 1.

Definition world0 : world := mk_world db0 [].

Definition empty_world : world :=
  mk_world (mk_database [] [] [] [] [] 1 1 1) [].

(** Requests. *)
Definition no_filters : search_args := mk_search_args None None None None.

Definition halal_only : search_args :=
  mk_search_args None None (Some "Halal") None.

Definition halal_in_osaka : search_args :=
  mk_search_args None (Some "Osaka") (Some "Halal") None.

Definition italian : search_args :=
  mk_search_args None None (Some "Italian") None.

(** A line for a menu item that does not exist, with a quantity that is
    not a number. *)
Definition order_unknown_item_bad_quantity : order_data :=
  mk_order_data (PInt 1) [mk_line (Some 999) (PStr "abc")].

(** A line for an existing menu item, with a quantity that is not a
    number. *)
Definition order_bad_quantity : order_data :=
  mk_order_data (PInt 1) [mk_line (Some 1) (PStr "abc")].

(** Two ramen and one unit of a menu item that does not exist. *)
Definition order_with_unknown_item : order_data :=
  mk_order_data (PInt 1)
    [mk_line (Some 1) (PInt 2); mk_line (Some 999) (PInt 1)].

Definition order_without_items : order_data := mk_order_data (PInt 1) [].

Definition carol_form : register_form :=
  mk_register_form (Some "Carol") (Some "carol@example.com") (Some "pw")
    (Some "customer") None.

(** The same address in capitals, with an empty password. *)
Definition carol_again_no_password : register_form :=
  mk_register_form (Some "Carol") (Some "CAROL@EXAMPLE.COM") (Some "")
    (Some "customer") None.

(** The same address in capitals, every field filled in. *)
Definition carol_again : register_form :=
  mk_register_form (Some "Caroline") (Some "CAROL@EXAMPLE.COM") (Some "pw2")
    (Some "owner") None.

Definition nameless_restaurant : restaurant_data :=
  mk_restaurant_data (Some "") (Some "Osaka") (Some "Thai") None (PBool false) None.

Definition login_unknown : login_data :=
  mk_login_data (PStr "nobody@example.com") (PStr "secret").

Definition login_wrong_password : login_data :=
  mk_login_data (PStr "alice@example.com") (PStr "guess").

(** The password sent as a JSON number. *)
Definition login_number_password : login_data :=
  mk_login_data (PStr "alice@example.com") (PInt 123).

Definition blank_profile : profile_form :=
  mk_profile_form (Some "") (Some "") None.

End Samples.

(** ** The read-only handlers and the session *)

Module Views.
Import Py Db App.

(** [row_to_user]: the public columns of a user row, [None] for no row. *)
Definition row_to_user (row : option user) : pyval :=
  match row with
  | None => PNone
  | Some u =>
      PDict [("id", PInt (u_id u)); ("name", PStr (u_name u));
             ("email", PStr (u_email u)); ("role", PStr (u_role u));
             ("photo_url", opt_str (u_photo_url u))]
  end.

(** *** POST /api/auth/logout *)

Definition logout (w : world) (s : session) : outcome * world * session :=
  (Response 200 ok, w, None).

(** *** GET /api/auth/me *)

Definition me (w : world) (s : session) : outcome * world * session :=
  match session_uid s with
  | None => (Response 200 (PDict [("user", PNone)]), w, s)
  | Some uid =>
      (Response 200
         (PDict [("user", row_to_user (select_user_by_id (db w) uid))]),
       w, s)
  end.

(** *** GET /api/profile *)

Definition profile_get (w : world) (s : session) : outcome * world * session :=
  match session_uid s with
  | None => (Response 401 (error "Not authenticated"), w, s)
  | Some uid =>
      (Response 200
         (PDict [("user", row_to_user (select_user_by_id (db w) uid))]),
       w, s)
  end.

(** The two methods the route of [profile] accepts. *)
Inductive profile_method : Type :=
| ProfileGET
| ProfilePUT.

Definition profile `{PasswordHasher} (m : profile_method) (e : env) (w : world)
    (s : session) (f : profile_form) : outcome * world * session :=
  match m with
  | ProfileGET => profile_get w s
  | ProfilePUT => profile_put e w s f
  end.

(** *** GET /api/menu/<restaurant_id> *)

(** [SELECT ... FROM menu_items WHERE restaurant_id=%s], before the rows
    are ordered. *)
Definition select_menu (d : database) (restaurant_id : Z) : list menu_item :=
  filter (fun m => (m_restaurant_id m =? restaurant_id)%Z) (menu_items d).

Definition menu_name_le (a b : menu_item) : Prop :=
  String.leb (m_name a) (m_name b) = true.

(** The rows [cur.fetchall()] returns for [list_menu]: the selected rows
    under [ORDER BY name]. *)
Definition list_menu_rows (w : world) (restaurant_id : Z)
    (rows : list menu_item) : Prop :=
  Permutation (select_menu (db w) restaurant_id) rows
  /\ Sorted menu_name_le rows.

(** *** GET /api/orders *)

(** [SELECT id,status,created_at FROM orders WHERE user_id=%s], before the
    rows are ordered. *)
Definition select_orders (d : database) (uid : Z) : list order :=
  filter (fun o => (o_user_id o =? uid)%Z) (orders d).

(** [ORDER BY id DESC] *)
Definition order_id_ge (a b : order) : Prop := (o_id b <= o_id a)%Z.

(** What the GET branch of [orders] produces: the refusal, or the rows of
    [cur.fetchall()] in their order. *)
Inductive orders_listing : Type :=
| ListingRefused (out : outcome)
| ListingRows (rows : list order).

Definition orders_get (w : world) (s : session) (res : orders_listing) : Prop :=
  match session_uid s with
  | None => res = ListingRefused (Response 401 (error "Not authenticated"))
  | Some uid =>
      exists rows,
        res = ListingRows rows
        /\ Permutation (select_orders (db w) uid) rows
        /\ Sorted order_id_ge rows
  end.

(** One arrangement an [ORDER BY] may return, for an order given by
    [leb]: insertion into the sorted rows. *)
Fixpoint insert_sorted {A : Type} (leb : A -> A -> bool) (x : A) (sorted : list A)
    : list A :=
  match sorted with
  | [] => [x]
  | y :: rest =>
      if leb x y then x :: sorted else y :: insert_sorted leb x rest
  end.

Definition sort_with {A : Type} (leb : A -> A -> bool) (rows : list A) : list A :=
  fold_right (insert_sorted leb) [] rows.

End Views.

(** ** The requests that can write *)

Module Router.
Import Py Db App Views.

(** A request to one of the routes whose function is a function of the
    store: every route of [app.py] but the three listings (restaurants,
    menu, orders), which only read and whose row order the engine
    chooses, and the routes that serve files. *)
Inductive request : Type :=
| Register (f : register_form)
| Login (data : login_data)
| Logout
| Me
| Profile (m : profile_method) (f : profile_form)
| AddRestaurant (data : restaurant_data)
| PlaceOrder (data : order_data).

Definition handle `{Text} `{PasswordHasher} (r : request) (e : env) (w : world)
    (s : session) : outcome * world * session :=
  match r with
  | Register f => register e w s f
  | Login data => login w s data
  | Logout => logout w s
  | Me => me w s
  | Profile m f => profile m e w s f
  | AddRestaurant data => owner_add_restaurant w s data
  | PlaceOrder data => orders_post e w s data
  end.

(** The store after a series of requests, each with the surroundings it
    runs in and the session cookie its client sends. *)
Fixpoint run `{Text} `{PasswordHasher} (calls : list (env * session * request))
    (w : world) : world :=
  match calls with
  | [] => w
  | (e, s, r) :: rest => run rest (snd (fst (handle r e w s)))
  end.

End Router.

(** ** Vocabulary of the further properties *)

Module Notions.
Import Py Db App Props Views Router.

(** No two user rows carry the same email. *)
Definition unique_emails (d : database) : Prop := NoDup (map u_email (users d)).

(** No two user rows carry the same id. *)
Definition unique_user_ids (d : database) : Prop := NoDup (map u_id (users d)).

(** Every id in a table with an AUTO_INCREMENT counter lies below the
    counter. *)
Definition fresh_ids (d : database) : Prop :=
  Forall (fun u => (u_id u < users_auto_inc d)%Z) (users d)
  /\ Forall (fun r => (r_id r < restaurants_auto_inc d)%Z) (restaurants d)
  /\ Forall (fun o => (o_id o < orders_auto_inc d)%Z) (orders d).

(** What identifies an account. *)
Definition identity (u : user) : Z * string * string :=
  (u_id u, u_email u, u_role u).

(** The keys of the store are what a relational schema makes them: no
    two users with one email, no two rows of a table with one id, every
    id below the counter of its table. *)
Definition consistent (d : database) : Prop :=
  unique_emails d
  /\ unique_user_ids d
  /\ NoDup (map r_id (restaurants d))
  /\ NoDup (map o_id (orders d))
  /\ fresh_ids d.

(** The five tables of two databases hold the same rows. *)
Definition same_tables (d d' : database) : Prop :=
  users d' = users d
  /\ restaurants d' = restaurants d
  /\ menu_items d' = menu_items d
  /\ orders d' = orders d
  /\ order_items d' = order_items d.

(** The ways a request can leave the database: the rows as they were
    (the counter of [orders] may have moved); one more user, with the
    next id and an email no row had; the user rows rewritten in place,
    id, email and role kept; one more restaurant, with the next id; one
    more order, with the next id, and rows of [order_items] for it. *)
Inductive effect (d : database) : database -> Prop :=
| RowsKept (d' : database) :
    same_tables d d' ->
    users_auto_inc d' = users_auto_inc d ->
    restaurants_auto_inc d' = restaurants_auto_inc d ->
    (orders_auto_inc d <= orders_auto_inc d')%Z ->
    effect d d'
| UserAdded (row : user) :
    u_id row = users_auto_inc d ->
    ~ In (u_email row) (map u_email (users d)) ->
    effect d
      (mk_database (users d ++ [row]) (restaurants d) (menu_items d) (orders d)
         (order_items d) (users_auto_inc d + 1) (restaurants_auto_inc d)
         (orders_auto_inc d))
| UsersRewritten (g : user -> user) :
    (forall u, identity (g u) = identity u) ->
    effect d (with_users d (map g (users d)))
| RestaurantAdded (row : restaurant) :
    r_id row = restaurants_auto_inc d ->
    effect d
      (mk_database (users d) (restaurants d ++ [row]) (menu_items d) (orders d)
         (order_items d) (users_auto_inc d) (restaurants_auto_inc d + 1)
         (orders_auto_inc d))
| OrderAdded (row : order) (rows : list order_item) :
    o_id row = orders_auto_inc d ->
    Forall (fun i => oi_order_id i = o_id row) rows ->
    effect d
      (mk_database (users d) (restaurants d) (menu_items d) (orders d ++ [row])
         (order_items d ++ rows) (users_auto_inc d) (restaurants_auto_inc d)
         (orders_auto_inc d + 1)).

(** The answer is a response with status 200. *)
Definition succeeded (out : outcome) : Prop := exists body, out = Response 200 body.

(** Two user rows agree on every column but the password hash. *)
Definition same_public (u u' : user) : Prop :=
  u_id u' = u_id u
  /\ u_name u' = u_name u
  /\ u_email u' = u_email u
  /\ u_role u' = u_role u
  /\ u_photo_url u' = u_photo_url u.

(** [l] is the beginning of [l']. *)
Definition extends {A : Type} (l l' : list A) : Prop := exists rest, l' = l ++ rest.

(** A search parameter that the handler treats as not given. *)
Definition inactive (v : option string) (sentinel : string) : Prop :=
  v = None \/ v = Some "" \/ v = Some sentinel.

(** A text without the characters [LIKE] gives a meaning to. *)
Fixpoint wildcard_free (q : string) : bool :=
  match q with
  | EmptyString => true
  | String c rest =>
      negb (Ascii.eqb c "%") && negb (Ascii.eqb c "_") && negb (Ascii.eqb c "\")
      && wildcard_free rest
  end.

(** [q] occurs in [t]. *)
Definition occurs_in (q t : string) : Prop :=
  exists before after, t = (before ++ q ++ after)%string.

(** The characters of a printed integer. *)
Definition numeral_char (c : ascii) : Prop :=
  (exists d, digit_of c = Some d) \/ c = "-"%char.

(** The name under which an upload is stored. *)
Definition safe_name (timestamp : Z) (filename : string) : string :=
  (str_of_int timestamp ++ "_" ++ filename)%string.

(** The caller's row after a profile update that is sent [f] and stores
    [hash] and [url] for a new password and a new photo. *)
Definition updated_user (u : user) (f : profile_form) (hash : string)
    (url : option string) : user :=
  mk_user (u_id u)
    (if str_truthy (pf_name f) then get_default (pf_name f) "" else u_name u)
    (u_email u)
    (if str_truthy (pf_password f) then hash else u_password_hash u)
    (u_role u)
    (match url with Some x => Some x | None => u_photo_url u end).

End Notions.

(** ** Further sample data *)

Module Cases.
Import Py Db App Props Samples Views Router Notions.

(** The world after Alice has ordered two ramen. *)
Definition world1 : world :=
  world_of (orders_post env0 world0 (Some 1%Z) order_with_unknown_item).

Definition carol_login : login_data :=
  mk_login_data (PStr " Carol@Example.com ") (PStr "pw").



Definition rename_to_al : profile_form := mk_profile_form (Some "Al") None None.

Definition new_password : profile_form :=
  mk_profile_form None (Some "tiger") None.

Definition alice_new_login : login_data :=
  mk_login_data (PStr "alice@example.com") (PStr "tiger").

Definition alice_login : login_data :=
  mk_login_data (PStr "ALICE@example.com") (PStr "secret").

Definition izakaya : restaurant_data :=
  mk_restaurant_data (Some " Izakaya ") (Some "Osaka") (Some "Japanese") None
    (PStr "no") None.

Definition izakaya_row : restaurant :=
  mk_restaurant 4 2 "Izakaya" "Osaka" "Japanese" yen true None.

Definition by_name_sak : search_args :=
  mk_search_args (Some " SAK ") None None None.

Definition all_sentinels : search_args :=
  mk_search_args (Some "  ") (Some "All Areas") (Some "All Cuisines")
    (Some "All Prices").

Definition order_only_unknown : order_data :=
  mk_order_data (PInt 1) [mk_line (Some 999%Z) (PInt 1); mk_line None PNone].

(** Carol registers, Bob adds a restaurant, Alice orders, with a refused
    request in between. *)
Definition busy_day : list (env * session * request) :=
  [(env0, None, Register carol_form);
   (env0, Some 2%Z, AddRestaurant izakaya);
   (env0, Some 1%Z, PlaceOrder order_bad_quantity);
   (env0, Some 1%Z, PlaceOrder order_with_unknown_item);
   (env0, Some 3%Z, Profile ProfilePUT rename_to_al)].

(** The users of [db0] with other password hashes. *)
Definition world0_rehashed : world :=
  mk_world
    (with_users db0
       [mk_user 1 "Alice" "alice@example.com" "x" "customer" None;
        mk_user 2 "Bob" "bob@example.com" "y" "owner" None])
    [].

End Cases.

(** ** Python built-ins: facts *)

Module PyFacts.
Import Py.

Lemma is_space_lower_ascii (c : ascii) : is_space (lower_ascii c) = is_space c.
Proof. destruct c as [[] [] [] [] [] [] [] []]; reflexivity. Qed.

Lemma lower_lstrip (s : string) :
  ascii_lower (lstrip is_space s) = lstrip is_space (ascii_lower s).
Proof.
  induction s as [|c s IH]; simpl.
  - reflexivity.
  - rewrite is_space_lower_ascii. destruct (is_space c); [exact IH | reflexivity].
Qed.

Lemma lower_rstrip (s : string) :
  ascii_lower (rstrip is_space s) = rstrip is_space (ascii_lower s).
Proof.
  induction s as [|c s IH]; simpl.
  - reflexivity.
  - rewrite <- IH, is_space_lower_ascii.
    destruct (rstrip is_space s); simpl; [destruct (is_space c)|]; reflexivity.
Qed.

(** On ASCII text, lower-casing and stripping commute. *)
Lemma lower_strip (s : string) :
  ascii_lower (ascii_strip s) = ascii_strip (ascii_lower s).
Proof. unfold ascii_strip. now rewrite lower_rstrip, lower_lstrip. Qed.

(** ASCII addresses equal up to letter case are equal once normalised the
    way the handlers do it. *)
Lemma normalised_email_eq (a b : string) :
  ascii_lower a = ascii_lower b ->
  ascii_lower (ascii_strip a) = ascii_lower (ascii_strip b).
Proof. intros E. now rewrite !lower_strip, E. Qed.

Lemma str_truthy_empty : str_truthy (Some "") = str_truthy None.
Proof. reflexivity. Qed.

End PyFacts.

(** ** POST /api/orders *)

Module Orders.
Import Py Db App Props Samples.

Lemma with_order_items_same (d : database) :
  with_order_items d (order_items d ++ []) = d.
Proof. destruct d; unfold with_order_items; simpl. now rewrite app_nil_r. Qed.

Lemma surviving_cons_some (d : database) (it : line) (rest : list line) (p : price) :
  line_price d it = Some p -> surviving d (it :: rest) = it :: surviving d rest.
Proof. intros E. unfold surviving; simpl. now rewrite E. Qed.

Lemma surviving_cons_none (d : database) (it : line) (rest : list line) :
  line_price d it = None -> surviving d (it :: rest) = surviving d rest.
Proof. intros E. unfold surviving; simpl. now rewrite E. Qed.

(** The loop, when it does not raise, appends to [order_items] one row
    per line whose menu item exists, in request order, and touches
    nothing else. *)
Lemma add_order_items_inr `{Text} (order_id : Z) (items : list line) :
  forall d d',
    add_order_items order_id items d = inr d' ->
    exists rows,
      d' = with_order_items d (order_items d ++ rows)
      /\ Forall2 (row_of_line d order_id) (surviving d items) rows.
Proof.
  induction items as [|it rest IH]; intros d d' E; simpl in E.
  - injection E as <-. exists []. split; [now rewrite with_order_items_same | constructor].
  - destruct (py_int (py_or (quantity it) (PInt 1))) as [ex|qty] eqn:Eq;
      [discriminate|].
    destruct (menu_item_id it) as [id|] eqn:Eid.
    + destruct (select_price d id) as [p|] eqn:Ep.
      * apply IH in E. destruct E as (rows & -> & F).
        exists (mk_order_item order_id id qty p :: rows). split.
        -- unfold with_order_items, insert_order_item; simpl.
           now rewrite <- app_assoc.
        -- rewrite (surviving_cons_some d it rest p)
             by (unfold line_price; now rewrite Eid).
           constructor; [|exact F].
           unfold row_of_line, coerced_quantity, line_price; simpl.
           rewrite Eid, Eq. auto.
      * apply IH in E. destruct E as (rows & -> & F).
        exists rows. split; [reflexivity|].
        rewrite surviving_cons_none by (unfold line_price; now rewrite Eid).
        exact F.
    + apply IH in E. destruct E as (rows & -> & F).
      exists rows. split; [reflexivity|].
      rewrite surviving_cons_none by (unfold line_price; now rewrite Eid).
      exact F.
Qed.

(** The loop returns when every quantity can be coerced. *)
Lemma add_order_items_total `{Text} (order_id : Z) (items : list line) :
  forall d, Forall coerces items ->
            exists d', add_order_items order_id items d = inr d'.
Proof.
  induction items as [|it rest IH]; intros d F; simpl.
  - now exists d.
  - inversion F as [|? ? [qty Eq] F']; subst.
    unfold coerced_quantity in Eq. rewrite Eq.
    destruct (menu_item_id it) as [id|]; [destruct (select_price d id)|]; apply IH, F'.
Qed.

(** The loop raises as soon as one quantity cannot be coerced, whether
    the menu item of that line exists or not. *)
Lemma add_order_items_raises `{Text} (order_id : Z) (items : list line) :
  forall d, Exists (fun it => forall qty, coerced_quantity it <> inr qty) items ->
            exists ex, add_order_items order_id items d = inl ex.
Proof.
  induction items as [|it rest IH]; intros d X; simpl.
  - inversion X.
  - destruct (py_int (py_or (quantity it) (PInt 1))) as [ex|qty] eqn:Eq.
    + now exists ex.
    + inversion X as [? ? Bad|? ? X']; subst.
      * exfalso. apply (Bad qty). exact Eq.
      * destruct (menu_item_id it) as [id|]; [destruct (select_price d id)|];
          apply IH, X'.
Qed.

(** A missing or falsy quantity becomes 1. *)
Lemma quantity_defaults_to_one `{Text} (it : line) :
  truthy (quantity it) = false -> coerced_quantity it = inr 1%Z.
Proof. intros E. unfold coerced_quantity, py_or. now rewrite E. Qed.

Lemma apply_price_changes_order_items (changes : list (Z * price)) :
  forall d, order_items (apply_price_changes d changes) = order_items d.
Proof.
  induction changes as [|c cs IH]; intros d; simpl.
  - reflexivity.
  - unfold apply_price_changes in *; simpl. now rewrite IH.
Qed.

(** What [orders_post] does for an authenticated caller and a non-empty
    request in which every quantity can be coerced: the order row is
    created with the next id, that id is returned, and [order_items]
    grows by one row per line whose menu item exists. *)
Lemma orders_post_skips_unknown_items `{Text} (e : env) (w : world) (s : session)
    (uid : Z) (data : order_data) :
  session_uid s = Some uid ->
  od_items data <> [] ->
  Forall coerces (od_items data) ->
  exists w' rows,
    let order_id := orders_auto_inc (db w) in
    orders_post e w s data
    = (Response 200 (PDict [("ok", PBool true); ("order_id", PInt order_id)]), w', s)
    /\ orders (db w') = orders (db w) ++ [mk_order order_id uid "pending" (sql_now e)]
    /\ order_items (db w') = order_items (db w) ++ rows
    /\ Forall2 (row_of_line (db w) order_id) (surviving (db w) (od_items data)) rows.
Proof.
  intros Hs Hne Hc. unfold orders_post. rewrite Hs.
  destruct (od_items data) as [|it rest] eqn:Ei; [contradiction|].
  cbv zeta. unfold insert_order at 1.
  destruct (add_order_items_total (orders_auto_inc (db w)) (it :: rest)
              (fst (insert_order (db w) uid "pending" (sql_now e))) Hc)
    as [d' Ed].
  unfold insert_order in Ed; simpl fst in Ed. rewrite Ed.
  destruct (add_order_items_inr _ _ _ _ Ed) as (rows & -> & F).
  eexists; exists rows. cbv zeta. split; [reflexivity|]. simpl. auto.
Qed.

(** C1, at a request where the handler departs from it.  The only line
    names menu item 999, which does not exist, with quantity ["abc"].
    C1 has such a line skipped without an error, the order row kept and
    its id returned.  The handler evaluates
    [int(it.get('quantity') or 1)] before it looks the menu item up, so
    it leaves through [ValueError] and nothing of the order persists. *)
Theorem orders_post_unknown_item_bad_quantity :
  line_price db0 (mk_line (Some 999%Z) (PStr "abc")) = None
  /\ outcome_of (orders_post env0 world0 (Some 1%Z) order_unknown_item_bad_quantity)
     = Raised ValueError
  /\ orders (db (world_of (orders_post env0 world0 (Some 1%Z)
                             order_unknown_item_bad_quantity)))
     = orders db0
  /\ order_items (db (world_of (orders_post env0 world0 (Some 1%Z)
                                  order_unknown_item_bad_quantity)))
     = order_items db0.
Proof. repeat split; reflexivity. Qed.

(** C2, at a request with a quantity that is not a number.  The line
    orders the existing menu item 1 with quantity ["abc"].  C2 has the
    quantity become 1 and the order go through.  [int("abc")] raises
    [ValueError]: the handler answers with an error, and no order row and
    no order-item row persists. *)
Theorem orders_post_bad_quantity :
  select_price db0 1 = Some (900 # 1)
  /\ coerced_quantity (mk_line (Some 1%Z) (PStr "abc")) = inl ValueError
  /\ outcome_of (orders_post env0 world0 (Some 1%Z) order_bad_quantity)
     = Raised ValueError
  /\ orders (db (world_of (orders_post env0 world0 (Some 1%Z) order_bad_quantity)))
     = []
  /\ order_items (db (world_of (orders_post env0 world0 (Some 1%Z)
                                  order_bad_quantity)))
     = [].
Proof. repeat split; reflexivity. Qed.

(** The same for every request: one quantity that cannot be coerced
    makes the whole call fail, and no row of the order persists. *)
Lemma orders_post_fails_on_bad_quantity `{Text} (e : env) (w : world) (s : session)
    (uid : Z) (data : order_data) :
  session_uid s = Some uid ->
  Exists (fun it => forall qty, coerced_quantity it <> inr qty) (od_items data) ->
  exists ex w',
    orders_post e w s data = (Raised ex, w', s)
    /\ orders (db w') = orders (db w)
    /\ order_items (db w') = order_items (db w).
Proof.
  intros Hs X. unfold orders_post. rewrite Hs.
  destruct (od_items data) as [|it rest] eqn:Ei; [inversion X|].
  cbv zeta. unfold insert_order at 1.
  destruct (add_order_items_raises (orders_auto_inc (db w)) (it :: rest)
              (fst (insert_order (db w) uid "pending" (sql_now e))) X)
    as [ex Ed].
  unfold insert_order in Ed; simpl fst in Ed. rewrite Ed.
  exists ex. eexists. split; [reflexivity|]. simpl. auto.
Qed.

(** C4: an authenticated call with an empty [items] list is answered
    with status 400 and leaves the store (every table, every counter,
    the uploads) and the session as they were. *)
Theorem orders_post_empty_items `{Text} (e : env) (w : world) (s : session)
    (uid : Z) (data : order_data) :
  session_uid s = Some uid ->
  od_items data = [] ->
  orders_post e w s data = (Response 400 (error "No items"), w, s).
Proof. intros Hs Hi. unfold orders_post. now rewrite Hs, Hi. Qed.

Lemma orders_post_empty_items_witness :
  orders_post env0 world0 (Some 1%Z) order_without_items
  = (Response 400 (error "No items"), world0, Some 1%Z).
Proof.
  apply (orders_post_empty_items env0 world0 (Some 1%Z) 1%Z order_without_items);
    reflexivity.
Defined.

(** C5: the rows a successful call adds to [order_items] carry the price
    the menu had when the call was made, and no later change of menu
    prices alters them. *)
Theorem order_item_price_is_snapshot `{Text} (e : env) (w w' : world) (s s' : session)
    (data : order_data) (order_id : Z) :
  orders_post e w s data
  = (Response 200 (PDict [("ok", PBool true); ("order_id", PInt order_id)]), w', s') ->
  exists rows,
    order_items (db w') = order_items (db w) ++ rows
    /\ Forall (fun row =>
                 oi_order_id row = order_id
                 /\ select_price (db w) (oi_menu_item_id row) = Some (oi_price row))
         rows
    /\ forall changes,
         order_items (apply_price_changes (db w') changes)
         = order_items (db w) ++ rows.
Proof.
  unfold orders_post.
  destruct (session_uid s) as [uid|]; [|discriminate].
  destruct (od_items data) as [|it rest]; [discriminate|].
  cbv zeta. unfold insert_order at 1.
  destruct (add_order_items _ _ _) as [ex|d2] eqn:Ed; [discriminate|].
  intros E. injection E as Eid <- <-. subst order_id.
  destruct (add_order_items_inr _ _ _ _ Ed) as (rows & -> & F).
  exists rows. split; [reflexivity|]. split.
  - clear Ed. revert F. generalize (surviving
      (fst (insert_order (db w) uid "pending" (sql_now e))) (it :: rest)).
    intros ls F. induction F as [|l row ls' rows' R F' IH]; constructor; [|exact IH].
    destruct R as (Ho & Hm & _ & Hp). split; [exact Ho|].
    unfold line_price in Hp. rewrite Hm in Hp. exact Hp.
  - intros changes. now rewrite apply_price_changes_order_items.
Qed.

Lemma order_item_price_is_snapshot_witness :
  exists rows,
    order_items (db (world_of (orders_post env0 world0 (Some 1%Z)
                                 order_with_unknown_item)))
    = order_items db0 ++ rows
    /\ Forall (fun row =>
                 oi_order_id row = 1%Z
                 /\ select_price db0 (oi_menu_item_id row) = Some (oi_price row))
         rows
    /\ forall changes,
         order_items
           (apply_price_changes
              (db (world_of (orders_post env0 world0 (Some 1%Z)
                               order_with_unknown_item))) changes)
         = order_items db0 ++ rows.
Proof.
  apply (order_item_price_is_snapshot env0 world0 _ (Some 1%Z) (Some 1%Z)
           order_with_unknown_item 1%Z).
  reflexivity.
Defined.

End Orders.

(** ** GET /api/restaurants *)

Module Restaurants.
Import Py Db App Props Samples.

(** *** The order on names *)

Lemma leb_trans (a b c : string) :
  String.leb a b = true -> String.leb b c = true -> String.leb a c = true.
Proof.
  unfold String.leb. revert b c.
  induction a as [|x a IH]; intros [|y b] [|z c]; simpl; try easy.
  unfold Ascii.compare.
  destruct (N.compare_spec (N_of_ascii x) (N_of_ascii y)) as [E1|L1|G1];
    try easy;
    destruct (N.compare_spec (N_of_ascii y) (N_of_ascii z)) as [E2|L2|G2];
    try easy;
    destruct (N.compare_spec (N_of_ascii x) (N_of_ascii z)) as [E3|L3|G3];
    try easy; try lia.
  apply IH.
Qed.

Lemma name_le_trans : Relations_1.Transitive name_le.
Proof. intros a b c. unfold name_le. apply leb_trans. Qed.

(** *** [sort_by_name] is one of the arrangements [ORDER BY name] allows *)

Lemma insert_by_name_perm (r : restaurant) (l : list restaurant) :
  Permutation (r :: l) (insert_by_name r l).
Proof.
  induction l as [|x l IH]; simpl.
  - apply Permutation_refl.
  - destruct (String.leb (r_name r) (r_name x)).
    + apply Permutation_refl.
    + eapply perm_trans; [apply perm_swap|]. now apply perm_skip.
Qed.

Lemma insert_by_name_hd (r x : restaurant) (l : list restaurant) :
  name_le x r -> HdRel name_le x l -> HdRel name_le x (insert_by_name r l).
Proof.
  intros Hxr Hl. destruct l as [|y l]; simpl.
  - now constructor.
  - destruct (String.leb (r_name r) (r_name y)); constructor;
      [exact Hxr | now inversion Hl].
Qed.

Lemma insert_by_name_sorted (r : restaurant) (l : list restaurant) :
  Sorted name_le l -> Sorted name_le (insert_by_name r l).
Proof.
  induction 1 as [|x l S IH Hd]; simpl.
  - repeat constructor.
  - destruct (String.leb (r_name r) (r_name x)) eqn:E.
    + constructor; [now constructor | now constructor].
    + constructor; [exact IH|].
      apply insert_by_name_hd; [|exact Hd].
      unfold name_le.
      destruct (String.leb_total (r_name r) (r_name x)) as [T|T];
        [congruence | exact T].
Qed.

Lemma sort_by_name_ordered (rows : list restaurant) :
  order_by_name rows (sort_by_name rows).
Proof.
  split.
  - induction rows as [|r rows IH]; simpl; [constructor|].
    eapply perm_trans; [apply perm_skip, IH | apply insert_by_name_perm].
  - induction rows as [|r rows IH]; simpl; [constructor|].
    now apply insert_by_name_sorted.
Qed.

(** Every search has a result. *)
Lemma list_restaurants_rows_exists `{Text} `{SqlText} (w : world) (a : search_args) :
  list_restaurants_rows w a
    (sort_by_name (select_restaurants (db w) (search_clauses a))).
Proof. apply sort_by_name_ordered. Qed.

Lemma list_restaurants_total `{Text} `{SqlText} (w : world) (a : search_args) :
  exists out, list_restaurants w a out.
Proof.
  eexists. eexists. split; [apply list_restaurants_rows_exists | reflexivity].
Qed.

(** *** What the cuisine parameter adds to the [WHERE] clause *)

Lemma search_clauses_halal `{Text} `{SqlText} (a : search_args) (r : restaurant) :
  sa_cuisine a = Some "Halal" ->
  forallb (fun c => clause_holds c r) (search_clauses a)
  = (r_halal r && other_filters a r)%bool.
Proof.
  intros E. unfold other_filters, search_clauses, without_cuisine; simpl.
  rewrite E; simpl. rewrite !forallb_app; simpl.
  destruct (r_halal r); simpl;
    repeat match goal with |- context [forallb ?f ?l] =>
                             destruct (forallb f l); simpl end;
    reflexivity.
Qed.

Lemma search_clauses_cuisine `{Text} `{SqlText} (a : search_args) (c : string) (r : restaurant) :
  sa_cuisine a = Some c -> c <> "" -> c <> "All Cuisines" -> c <> "Halal" ->
  forallb (fun c => clause_holds c r) (search_clauses a)
  = ((r_cuisine r =? c)%string && other_filters a r)%bool.
Proof.
  intros E N1 N2 N3. unfold other_filters, search_clauses, without_cuisine; simpl.
  rewrite E. unfold given; simpl.
  apply String.eqb_neq in N1, N2, N3. rewrite N1, N2, N3; simpl.
  rewrite !forallb_app; simpl.
  destruct (r_cuisine r =? c)%string; simpl;
    repeat match goal with |- context [forallb ?f ?l] =>
                             destruct (forallb f l); simpl end;
    reflexivity.
Qed.

Lemma filter_ext_perm {A : Type} (f g : A -> bool) (l l' : list A) :
  (forall x, f x = g x) -> Permutation (filter f l) l' -> Permutation (filter g l) l'.
Proof. intros E. now rewrite (filter_ext f g E). Qed.

(** *** The cuisine filter *)

(** C3 as stated fails: a search for cuisine ["Halal"] in area ["Osaka"]
    returns the one halal restaurant of Osaka, and not the halal
    restaurant of Shibuya, so the result is not the set of all
    restaurants whose halal flag is true. *)
Lemma halal_search_is_not_all_halal :
  sa_cuisine halal_in_osaka = Some "Halal"
  /\ list_restaurants_rows world0 halal_in_osaka [sakura_osaka]
  /\ ~ (forall r,
          In r [sakura_osaka]
          <-> In r (restaurants (db world0)) /\ r_halal r = true).
Proof.
  split; [reflexivity|]. split.
  - split; [apply Permutation_refl | repeat constructor].
  - intros H. destruct (proj2 (H sakura_shibuya)) as [E|[]].
    + split; [now left | reflexivity].
    + discriminate E.
Qed.

(** C3, amended: with cuisine ["Halal"] the result is exactly the
    restaurants whose halal flag is true and that pass the other filters
    of the call, whatever their cuisine field (so it is exactly the
    restaurants with a true halal flag when no other filter is given);
    with any other cuisine value that is not empty and not
    ["All Cuisines"], it is exactly the restaurants whose cuisine field
    equals the value and that pass the other filters. *)
Theorem cuisine_filter `{Text} `{SqlText} (w : world) (a : search_args) (rows : list restaurant) :
  list_restaurants_rows w a rows ->
  (sa_cuisine a = Some "Halal" ->
   Permutation
     (filter (fun r => r_halal r && other_filters a r)%bool (restaurants (db w)))
     rows
   /\ (search_clauses (without_cuisine a) = [] ->
       Permutation (filter r_halal (restaurants (db w))) rows))
  /\ (forall c,
        sa_cuisine a = Some c -> c <> "" -> c <> "All Cuisines" -> c <> "Halal" ->
        Permutation
          (filter (fun r => (r_cuisine r =? c)%string && other_filters a r)%bool
             (restaurants (db w)))
          rows).
Proof.
  intros [P _]. unfold select_restaurants in P. split.
  - intros E. split.
    + generalize P; apply filter_ext_perm.
      intros r. now apply search_clauses_halal.
    + intros Hnone. generalize P; apply filter_ext_perm.
      intros r. rewrite (search_clauses_halal a r E).
      unfold other_filters. rewrite Hnone. simpl. now rewrite andb_true_r.
  - intros c E N1 N2 N3. generalize P; apply filter_ext_perm.
    intros r. now apply search_clauses_cuisine.
Qed.

Lemma cuisine_filter_witness :
  Permutation (filter r_halal (restaurants (db world0)))
    [sakura_shibuya; sakura_osaka]
  /\ Permutation
       (filter (fun r => (r_cuisine r =? "Italian")%string
                         && other_filters italian r)%bool
          (restaurants (db world0)))
       [trattoria].
Proof.
  split.
  - apply (cuisine_filter world0 halal_only [sakura_shibuya; sakura_osaka]).
    + split; [apply Permutation_refl | repeat constructor].
    + reflexivity.
    + reflexivity.
  - apply (cuisine_filter world0 italian [trattoria]).
    + split; [apply Permutation_refl | repeat constructor].
    + reflexivity.
    + discriminate.
    + discriminate.
    + discriminate.
Defined.

(** The same in terms of membership. *)
Lemma halal_filter_members `{Text} `{SqlText} (w : world) (a : search_args)
    (rows : list restaurant) (r : restaurant) :
  list_restaurants_rows w a rows ->
  sa_cuisine a = Some "Halal" ->
  In r rows
  <-> In r (restaurants (db w)) /\ r_halal r = true /\ other_filters a r = true.
Proof.
  intros [P0 _] E. unfold select_restaurants in P0.
  assert (P : Permutation
                (filter (fun r => r_halal r && other_filters a r)%bool
                   (restaurants (db w))) rows).
  { generalize P0; apply filter_ext_perm.
    intros x. now apply search_clauses_halal. }
  split.
  - intros I. apply (Permutation_in _ (Permutation_sym P)) in I.
    apply filter_In in I. destruct I as [I B].
    apply andb_true_iff in B. tauto.
  - intros (I & B1 & B2). apply (Permutation_in _ P).
    apply filter_In. split; [exact I|]. now rewrite B1, B2.
Qed.

(** *** The order of the result *)

(** The query orders by name only, and so does its model: with two
    restaurants called ["Sakura"], the arrangement with id 1 first and
    the arrangement with id 2 first both meet it. *)
Lemma order_by_name_leaves_ties_open :
  list_restaurants_rows world0 no_filters [sakura_shibuya; sakura_osaka; trattoria]
  /\ list_restaurants_rows world0 no_filters [sakura_osaka; sakura_shibuya; trattoria].
Proof.
  split.
  - split; [apply Permutation_refl | repeat constructor].
  - split; [apply perm_swap | repeat constructor].
Qed.

(** The rows returned are the rows the filters select, in ascending
    order of name: every row comes before every row with a greater
    name. *)
Lemma list_restaurants_ordered_by_name `{Text} `{SqlText} (w : world) (a : search_args)
    (rows : list restaurant) :
  list_restaurants_rows w a rows ->
  StronglySorted name_le rows
  /\ Permutation (select_restaurants (db w) (search_clauses a)) rows.
Proof.
  intros [P S]. split; [|exact P].
  apply Sorted_StronglySorted; [exact name_le_trans | exact S].
Qed.

End Restaurants.

(** ** POST /api/auth/login and /api/auth/register *)

Module Auth.
Import Py Db App Props Samples.

(** A login leaves the store as it was.  It is refused with the one
    generic answer, accepted for the row found, or it ends in an
    exception. *)
Lemma login_outcomes `{Text} `{PasswordHasher} (w : world) (s : session)
    (data : login_data) :
  login w s data = (Response 401 login_refused, w, s)
  \/ (exists row, login w s data = (Response 200 ok, w, Some (u_id row)))
  \/ (exists ex, login w s data = (Raised ex, w, s)).
Proof.
  unfold login.
  destruct (login_email data) as [ex|email]; [right; right; now exists ex|].
  destruct (select_user_by_email _ _) as [row|]; [|now left].
  destruct (check_password_hash _ _) as [ex|[|]]; simpl.
  - right; right; now exists ex.
  - right; left; now exists row.
  - now left.
Qed.

(** A login answered with status 401 has one of the two causes. *)
Lemma login_refused_cause `{Text} `{PasswordHasher} (w : world) (s : session)
    (data : login_data) (body : pyval) :
  outcome_of (login w s data) = Response 401 body ->
  unknown_email w data \/ wrong_password w data.
Proof.
  unfold login, unknown_email, wrong_password, login_password.
  destruct (login_email data) as [ex|email]; [discriminate|].
  destruct (select_user_by_email _ _) as [row|] eqn:Sel;
    [|intros _; left; now exists email].
  destruct (check_password_hash _ _) as [ex|[|]] eqn:E; simpl; try discriminate.
  intros _. right. now exists email, row.
Qed.

(** A login refused because no user has the address and a login refused
    because the hash does not verify the password get the same answer,
    status 401 with the message "Invalid email or password", and both
    leave the store and the session as they were. *)
Lemma login_refusals_same_answer `{Text} `{PasswordHasher} (w : world)
    (s : session) (data : login_data) :
  unknown_email w data \/ wrong_password w data ->
  login w s data = (Response 401 (error "Invalid email or password"), w, s).
Proof.
  unfold login, unknown_email, wrong_password, login_password.
  intros [(email & E & Sel)|(email & row & E & Sel & C)]; rewrite E, Sel;
    [reflexivity|].
  now rewrite C.
Qed.

Example login_refusals_same_answer_example :
  login world0 None login_unknown
  = (Response 401 (error "Invalid email or password"), world0, None)
  /\ login world0 None login_wrong_password
     = (Response 401 (error "Invalid email or password"), world0, None).
Proof. split; reflexivity. Qed.

(** C6, where the handler departs from it.  The password of the request
    is handed to [check_password_hash] as it came, and only when a user
    has the address.  When the verification raises on it (as it does on
    a password sent as a JSON number, which has no bytes to hash), the
    login of a registered address ends in that exception, status 500,
    while the same request against a store where no user has the address
    is answered with the generic 401: the two ways of failing are told
    apart by the caller. *)
Theorem login_raising_check_tells_known_email `{Text} `{PasswordHasher}
    (w w' : world) (s : session) (data : login_data) (ex : exn) :
  verification_raises w data ex ->
  unknown_email w' data ->
  login w s data = (Raised ex, w, s)
  /\ login w' s data = (Response 401 (error "Invalid email or password"), w', s).
Proof.
  intros (email & row & E & Sel & C) (email' & E' & Sel').
  unfold login, login_password in *. rewrite E in *. injection E' as <-.
  rewrite Sel, Sel', C. split; reflexivity.
Qed.

Lemma login_raising_check_tells_known_email_witness :
  login world0 None login_number_password = (Raised AttributeError, world0, None)
  /\ login empty_world None login_number_password
     = (Response 401 (error "Invalid email or password"), empty_world, None).
Proof.
  apply (login_raising_check_tells_known_email world0 empty_world None
           login_number_password AttributeError).
  - exists "alice@example.com", alice. repeat split; reflexivity.
  - exists "alice@example.com". split; reflexivity.
Defined.

(** *** Registering an address twice *)

Lemma find_app_last {A : Type} (p : A -> bool) (l : list A) (x : A) :
  p x = true -> exists y, find p (l ++ [x]) = Some y.
Proof.
  intros Hx. induction l as [|a l IH]; simpl.
  - rewrite Hx. now exists x.
  - destruct (p a); [now exists a | exact IH].
Qed.

(** After a successful registration the normalised address is in
    [users]. *)
Lemma register_success_stores_email `{Text} `{PasswordHasher} (e : env)
    (w w1 : world) (s s1 : session) (f : register_form) :
  register e w s f = (Response 200 ok, w1, s1) ->
  lower (strip (get_default (rf_email f) "")) <> ""
  /\ exists row,
       select_user_by_email (db w1) (lower (strip (get_default (rf_email f) "")))
       = Some row.
Proof.
  unfold register. cbv zeta.
  destruct (_ || _ || _ || _)%bool eqn:V; [discriminate|].
  destruct (photo_save_fails _ _); [discriminate|].
  destruct (save_photo _ _ _) as [photo_url files].
  destruct (select_user_by_email _ _); [discriminate|].
  unfold insert_user. intros E. injection E as <- _.
  apply orb_false_iff in V. destruct V as [V _].
  apply orb_false_iff in V. destruct V as [V _].
  apply orb_false_iff in V. destruct V as [_ V].
  split; [now apply String.eqb_neq|].
  unfold select_user_by_email; simpl.
  apply find_app_last. simpl. apply String.eqb_refl.
Qed.

(** C8 as stated fails: Carol registers; a second registration with the
    same address in capitals and an empty password is answered with 400
    "Invalid data", not with 409. *)
Lemma register_twice_second_invalid :
  outcome_of (register env0 world0 None carol_form) = Response 200 ok
  /\ lower (get_default (rf_email carol_form) "")
     = lower (get_default (rf_email carol_again_no_password) "")
  /\ lower (strip (get_default (rf_email carol_form) ""))
     = lower (strip (get_default (rf_email carol_again_no_password) ""))
  /\ outcome_of (register env0 (world_of (register env0 world0 None carol_form))
                   None carol_again_no_password)
     = Response 400 (error "Invalid data")
  /\ outcome_of (register env0 (world_of (register env0 world0 None carol_form))
                   None carol_again_no_password)
     <> Response 409 (error "Email already registered").
Proof. repeat split; try reflexivity. discriminate. Qed.

(** A registration with an address some user has: the three ways it
    ends. *)
Lemma register_known_email `{Text} `{PasswordHasher} (e : env) (w : world)
    (s : session) (f : register_form) (row : user) :
  lower (strip (get_default (rf_email f) "")) <> "" ->
  select_user_by_email (db w) (lower (strip (get_default (rf_email f) "")))
  = Some row ->
  (acceptable_fields f /\ photo_save_fails e (rf_photo f) = false
   /\ register e w s f
      = (Response 409 (error "Email already registered"),
         mk_world (db w) (snd (save_photo e (rf_photo f) (uploads w))), s))
  \/ (acceptable_fields f /\ photo_save_fails e (rf_photo f) = true
      /\ register e w s f = (Raised OSError, w, s))
  \/ (~ acceptable_fields f
      /\ register e w s f = (Response 400 (error "Invalid data"), w, s)).
Proof.
  intros Ne Sel. unfold register, acceptable_fields. cbv zeta.
  apply String.eqb_neq in Ne. rewrite Ne.
  destruct (strip (get_default (rf_name f) "") =? "")%string eqn:Vn;
    [apply String.eqb_eq in Vn | apply String.eqb_neq in Vn]; simpl.
  { right; right. split; [intros (N & _); contradiction | reflexivity]. }
  destruct (get_default (rf_password f) "" =? "")%string eqn:Vp;
    [apply String.eqb_eq in Vp | apply String.eqb_neq in Vp]; simpl.
  { right; right. split; [intros (_ & N & _); contradiction | reflexivity]. }
  destruct (negb _) eqn:Vr.
  { right; right. split; [|reflexivity].
    intros (_ & _ & [N|N]); rewrite N in Vr; discriminate Vr. }
  assert (A : get_default (rf_role f) "customer" = "customer"
              \/ get_default (rf_role f) "customer" = "owner").
  { apply negb_false_iff, orb_true_iff in Vr.
    destruct Vr as [V|V]; apply String.eqb_eq in V; auto. }
  destruct (photo_save_fails e (rf_photo f)) eqn:Ph.
  - right; left. auto.
  - left. destruct (save_photo _ _ _) as [photo_url files]. rewrite Sel. auto.
Qed.

(** C8, amended: when a registration has succeeded, a later registration
    whose address is the same once stripped and lower-cased creates no
    user and leaves the session as it was.  It is answered with 409 when
    its name, password and role pass the handler's check and its photo,
    if it has one, can be written; it ends in the error of the write
    when they pass and the photo cannot be written; and it is answered
    with 400 when they do not pass, the check coming first. *)
Theorem register_twice_conflict `{Text} `{PasswordHasher} (e1 e2 : env)
    (w w1 : world) (s s1 s2 : session) (f1 f2 : register_form) :
  register e1 w s f1 = (Response 200 ok, w1, s1) ->
  lower (strip (get_default (rf_email f1) ""))
  = lower (strip (get_default (rf_email f2) "")) ->
  db (world_of (register e2 w1 s2 f2)) = db w1
  /\ session_of (register e2 w1 s2 f2) = s2
  /\ (acceptable_fields f2 -> photo_save_fails e2 (rf_photo f2) = false ->
      outcome_of (register e2 w1 s2 f2)
      = Response 409 (error "Email already registered"))
  /\ (acceptable_fields f2 -> photo_save_fails e2 (rf_photo f2) = true ->
      register e2 w1 s2 f2 = (Raised OSError, w1, s2))
  /\ (~ acceptable_fields f2 ->
      register e2 w1 s2 f2 = (Response 400 (error "Invalid data"), w1, s2)).
Proof.
  intros R1 Em. apply register_success_stores_email in R1.
  destruct R1 as (Ne & row & Sel). rewrite Em in Ne, Sel.
  destruct (register_known_email e2 w1 s2 f2 row Ne Sel)
    as [(A & P & ->)|[(A & P & ->)|(A & ->)]];
    repeat split; auto; try congruence; try contradiction.
Qed.

Lemma register_twice_conflict_witness :
  outcome_of (register env0 (world_of (register env0 world0 None carol_form))
                None carol_again)
  = Response 409 (error "Email already registered")
  /\ users (db (world_of (register env0
                            (world_of (register env0 world0 None carol_form))
                            None carol_again)))
     = users (db (world_of (register env0 world0 None carol_form))).
Proof.
  destruct (register_twice_conflict env0 env0 world0
              (world_of (register env0 world0 None carol_form))
              None (Some 3%Z) None carol_form carol_again)
    as (D & _ & C & _).
  - reflexivity.
  - reflexivity.
  - split.
    + apply C; [|reflexivity]. repeat split; try discriminate. right. reflexivity.
    + now rewrite D.
Defined.

End Auth.

(** ** POST /api/owner/restaurants *)

Module Owner.
Import Py Db App Props Samples.

(** C9: for a caller with a session whose user row is absent or has a
    role other than ["owner"], the answer is 403 whatever the body, an
    empty name included, and nothing changes: the role is checked before
    the name. *)
Theorem owner_role_checked_before_name `{Text} (w : world) (s : session) (uid : Z)
    (data : restaurant_data) :
  session_uid s = Some uid ->
  (forall row, select_user_by_id (db w) uid = Some row -> u_role row <> "owner") ->
  owner_add_restaurant w s data
  = (Response 403 (error "Owner role required"), w, s).
Proof.
  intros Hs Hr. unfold owner_add_restaurant. rewrite Hs.
  destruct (select_user_by_id (db w) uid) as [row|]; [|reflexivity].
  specialize (Hr row eq_refl). apply String.eqb_neq in Hr. now rewrite Hr.
Qed.

Lemma owner_role_checked_before_name_witness :
  strip (str_or (rd_name nameless_restaurant) "") = ""
  /\ owner_add_restaurant world0 (Some 1%Z) nameless_restaurant
     = (Response 403 (error "Owner role required"), world0, Some 1%Z).
Proof.
  split; [reflexivity|].
  apply (owner_role_checked_before_name world0 (Some 1%Z) 1%Z nameless_restaurant).
  - reflexivity.
  - intros row E. injection E as <-. discriminate.
Defined.

(** The 400 for an empty name is the answer an owner gets. *)
Lemma owner_empty_name `{Text} (w : world) (s : session) (uid : Z) (row : user)
    (data : restaurant_data) :
  session_uid s = Some uid ->
  select_user_by_id (db w) uid = Some row ->
  u_role row = "owner" ->
  strip (str_or (rd_name data) "") = "" ->
  owner_add_restaurant w s data = (Response 400 (error "Name required"), w, s).
Proof.
  intros Hs Hrow Hr Hn. unfold owner_add_restaurant.
  now rewrite Hs, Hrow, Hr, Hn.
Qed.

End Owner.

(** ** PUT /api/profile *)

Module Profile.
Import Py Db App Props Samples.

Lemma Forall2_map_same {A : Type} (R : A -> A -> Prop) (g : A -> A) (l : list A) :
  (forall x, R x (g x)) -> Forall2 R l (map g l).
Proof. intros Hg. induction l; simpl; constructor; auto. Qed.

Lemma Forall2_same {A : Type} (R : A -> A -> Prop) (l : list A) :
  (forall x, R x x) -> Forall2 R l l.
Proof. intros Hr. induction l; constructor; auto. Qed.

Ltac frame_row uid :=
  let u := fresh "u" in
  let E := fresh "E" in
  intros u; unfold profile_frame; simpl;
  destruct (u_id u =? uid)%Z eqn:E; simpl; rewrite ?E; simpl; rewrite ?E; simpl;
  repeat split; intros; try reflexivity; try congruence;
  try (apply Z.eqb_eq in E; contradiction).

(** The rows of [users] after an update, against the rows before. *)
Lemma profile_put_users `{PasswordHasher} (e : env) (w : world) (s : session)
    (uid : Z) (f : profile_form) :
  session_uid s = Some uid ->
  Forall2 (profile_frame uid f) (users (db w))
    (users (db (world_of (profile_put e w s f)))).
Proof.
  intros Hs. unfold profile_put, world_of. rewrite Hs.
  destruct f as [n p ph]. cbn [pf_name pf_password pf_photo].
  destruct (photo_save_fails e ph); [apply Forall2_same; frame_row uid|].
  unfold save_photo.
  destruct ph as [fn|]; [destruct (fn =? "")%string eqn:Efn|];
    destruct (str_truthy n) eqn:En; destruct (str_truthy p) eqn:Ep;
    simpl; rewrite ?map_map;
    first [ apply Forall2_map_same; frame_row uid
          | apply Forall2_same; frame_row uid ].
  all: try (rewrite Efn in *; discriminate).
Qed.

(** The update writes no table other than [users]. *)
Lemma profile_put_other_tables `{PasswordHasher} (e : env) (w : world)
    (s : session) (f : profile_form) :
  let d := db (world_of (profile_put e w s f)) in
  restaurants d = restaurants (db w)
  /\ menu_items d = menu_items (db w)
  /\ orders d = orders (db w)
  /\ order_items d = order_items (db w).
Proof.
  unfold profile_put, world_of.
  destruct (session_uid s); [|simpl; auto].
  destruct (photo_save_fails _ _); [simpl; auto|].
  destruct (save_photo _ _ _) as [[url|] files];
    destruct (str_truthy (pf_name f)); destruct (str_truthy (pf_password f));
    simpl; auto.
Qed.

(** C10: a name or a password sent as the empty string has the effect
    of a name or a password not sent; and whatever is sent, the update
    keeps every row of [users] in place, changes no row of another user,
    and in the caller's row changes only the columns sent with a
    non-empty value (id, email and role never). *)
Theorem profile_put_blank_fields `{PasswordHasher} (e : env) (w : world)
    (s : session) (f : profile_form) :
  profile_put e w s (mk_profile_form (Some "") (pf_password f) (pf_photo f))
  = profile_put e w s (mk_profile_form None (pf_password f) (pf_photo f))
  /\ profile_put e w s (mk_profile_form (pf_name f) (Some "") (pf_photo f))
     = profile_put e w s (mk_profile_form (pf_name f) None (pf_photo f))
  /\ (forall uid,
        session_uid s = Some uid ->
        Forall2 (profile_frame uid f) (users (db w))
          (users (db (world_of (profile_put e w s f)))))
  /\ (session_uid s = None -> world_of (profile_put e w s f) = w).
Proof.
  split; [reflexivity|]. split; [reflexivity|]. split.
  - intros uid Hs. now apply profile_put_users.
  - intros Hs. unfold profile_put, world_of. now rewrite Hs.
Qed.

Lemma profile_put_blank_fields_witness :
  str_truthy (pf_name blank_profile) = false
  /\ str_truthy (pf_password blank_profile) = false
  /\ Forall2 (profile_frame 1 blank_profile) (users db0)
       (users (db (world_of (profile_put env0 world0 (Some 1%Z) blank_profile)))).
Proof.
  split; [reflexivity|]. split; [reflexivity|].
  apply (profile_put_blank_fields env0 world0 (Some 1%Z) blank_profile).
  reflexivity.
Defined.

End Profile.

(** ** Accounts: registration, login, session and profile together *)

Module Accounts.
Import Py Db App Props Samples Views Router Notions Cases.

(** *** Lookups *)

Lemma find_app_none {A : Type} (p : A -> bool) (l : list A) (x : A) :
  find p l = None -> find p (l ++ [x]) = if p x then Some x else None.
Proof.
  induction l as [|a l IH]; simpl; [reflexivity|].
  destruct (p a); [discriminate | exact IH].
Qed.

Lemma find_map_preserving {A : Type} (p : A -> bool) (g : A -> A) (l : list A) :
  (forall x, p (g x) = p x) -> find p (map g l) = option_map g (find p l).
Proof.
  intros Hp. induction l as [|a l IH]; simpl; [reflexivity|].
  rewrite Hp. destruct (p a); [reflexivity | exact IH].
Qed.

Lemma select_by_email_none (d : database) (email : string) :
  select_user_by_email d email = None -> ~ In email (map u_email (users d)).
Proof.
  unfold select_user_by_email. intros N I.
  apply in_map_iff in I. destruct I as (u & E & I).
  apply (find_none _ _ N) in I. simpl in I.
  apply String.eqb_neq in I. contradiction.
Qed.

Lemma select_by_email_some (d : database) (email : string) (row : user) :
  select_user_by_email d email = Some row -> In row (users d) /\ u_email row = email.
Proof.
  unfold select_user_by_email. intros E. apply find_some in E.
  destruct E as [I E]. split; [exact I | now apply String.eqb_eq].
Qed.

Lemma select_by_id_unique (l : list user) (row : user) :
  NoDup (map u_id l) -> In row l ->
  find (fun u => (u_id u =? u_id row)%Z) l = Some row.
Proof.
  induction l as [|a l IH]; simpl; intros N I; [contradiction|].
  inversion N as [|? ? Na N']; subst.
  destruct I as [->|I].
  - now rewrite Z.eqb_refl.
  - destruct (u_id a =? u_id row)%Z eqn:E.
    + apply Z.eqb_eq in E. exfalso. apply Na. rewrite E. now apply in_map.
    + now apply IH.
Qed.

(** *** What a successful registration did *)

Lemma register_success_inv `{Text} `{PasswordHasher} (e : env) (w w1 : world)
    (s s1 : session) (f : register_form) :
  register e w s f = (Response 200 ok, w1, s1) ->
  let name := strip (get_default (rf_name f) "") in
  let email := lower (strip (get_default (rf_email f) "")) in
  let password := get_default (rf_password f) "" in
  let role := get_default (rf_role f) "customer" in
  let photo := save_photo e (rf_photo f) (uploads w) in
  let row := mk_user (users_auto_inc (db w)) name email
               (generate_password_hash (salt e) password) role (fst photo) in
  password <> ""
  /\ select_user_by_email (db w) email = None
  /\ users (db w1) = users (db w) ++ [row]
  /\ w1 = mk_world (fst (insert_user (db w) name email
                           (generate_password_hash (salt e) password) role
                           (fst photo)))
            (snd photo)
  /\ s1 = Some (users_auto_inc (db w)).
Proof.
  unfold register. cbv zeta.
  destruct (_ || _ || _ || _)%bool eqn:V; [discriminate|].
  destruct (photo_save_fails _ _); [discriminate|].
  destruct (save_photo _ _ _) as [photo_url files].
  destruct (select_user_by_email _ _) eqn:Sel; [discriminate|].
  unfold insert_user. intros E. injection E as <- <-.
  apply orb_false_iff in V. destruct V as [V _].
  apply orb_false_iff in V. destruct V as [_ V].
  simpl. repeat split. now apply String.eqb_neq.
Qed.

(** A registration keeps the emails of [users] distinct, whatever its
    outcome. *)
Lemma register_keeps_emails_unique `{Text} `{PasswordHasher} (e : env) (w : world)
    (s : session) (f : register_form) :
  unique_emails (db w) ->
  unique_emails (db (world_of (register e w s f))).
Proof.
  intros U.
  destruct (register e w s f) as [[out w1] s1] eqn:R. unfold world_of; simpl.
  assert (D : out = Response 200 ok \/ db w1 = db w).
  { revert R. unfold register. cbv zeta.
    destruct (_ || _ || _ || _)%bool; [intros [= <- <- <-]; now right|].
    destruct (photo_save_fails _ _); [intros [= <- <- <-]; now right|].
    destruct (save_photo _ _ _) as [photo_url files].
    destruct (select_user_by_email _ _); intros [= <- <- <-]; [now right | now left]. }
  destruct D as [-> | ->]; [|exact U].
  destruct (register_success_inv _ _ _ _ _ _ R) as (_ & Sel & Us & _).
  unfold unique_emails. rewrite Us, map_app. simpl.
  eapply Permutation_NoDup; [apply Permutation_cons_append|].
  constructor; [now apply select_by_email_none | exact U].
Qed.

(** After a successful registration, a login whose address is, once
    stripped and lower-cased, the one the registration stored (however
    it is capitalised or padded with white space), and whose password is
    the one registered, is accepted, and its session is the one the
    registration opened (given that the hash made for the password
    verifies it). *)
Theorem register_then_login `{Text} `{PasswordHasher} (e : env) (w w1 : world)
    (s s1 s' : session) (f : register_form) (data : login_data) :
  register e w s f = (Response 200 ok, w1, s1) ->
  check_password_hash
    (generate_password_hash (salt e) (get_default (rf_password f) ""))
    (PStr (get_default (rf_password f) "")) = inr true ->
  login_email data = inr (lower (strip (get_default (rf_email f) ""))) ->
  ld_password data = PStr (get_default (rf_password f) "") ->
  login w1 s' data = (Response 200 ok, w1, s1).
Proof.
  intros R Hh He Hp.
  destruct (register_success_inv _ _ _ _ _ _ R) as (Pw & Sel & Us & _ & ->).
  unfold login. rewrite He.
  unfold select_user_by_email in *. rewrite Us, (find_app_none _ _ _ Sel).
  simpl. rewrite String.eqb_refl. simpl.
  replace (py_or (ld_password data) (PStr ""))
    with (PStr (get_default (rf_password f) "")).
  - now rewrite Hh.
  - rewrite Hp. unfold py_or; simpl.
    apply String.eqb_neq in Pw. now rewrite Pw.
Qed.

Lemma register_then_login_witness :
  login (world_of (register env0 world0 None carol_form)) None carol_login
  = (Response 200 ok, world_of (register env0 world0 None carol_form), Some 3%Z).
Proof.
  apply (register_then_login env0 world0 _ None (Some 3%Z) None carol_form
           carol_login); reflexivity.
Defined.



(** After a registration, [me] with the session it opened shows the new
    account: the id the counter gave, the stripped name, the stripped
    and lower-cased address, the role and the photo URL (given that the
    counter is not 0 and above the ids of the table). *)
Theorem register_then_me `{Text} `{PasswordHasher} (e : env) (w w1 : world)
    (s s1 : session) (f : register_form) :
  register e w s f = (Response 200 ok, w1, s1) ->
  Forall (fun u => (u_id u < users_auto_inc (db w))%Z) (users (db w)) ->
  users_auto_inc (db w) <> 0%Z ->
  outcome_of (me w1 s1)
  = Response 200
      (PDict [("user",
               PDict [("id", PInt (users_auto_inc (db w)));
                      ("name", PStr (strip (get_default (rf_name f) "")));
                      ("email",
                       PStr (lower (strip (get_default (rf_email f) ""))));
                      ("role", PStr (get_default (rf_role f) "customer"));
                      ("photo_url",
                       opt_str (fst (save_photo e (rf_photo f) (uploads w))))])]).
Proof.
  intros R F Nz.
  destruct (register_success_inv _ _ _ _ _ _ R) as (_ & _ & Us & _ & ->).
  unfold me, outcome_of. simpl. apply Z.eqb_neq in Nz. rewrite Nz. simpl.
  unfold select_user_by_id. rewrite Us.
  rewrite find_app_none.
  - simpl. now rewrite Z.eqb_refl.
  - destruct (find _ (users (db w))) as [u|] eqn:E; [|reflexivity].
    apply find_some in E. destruct E as [I E]. apply Z.eqb_eq in E.
    rewrite Forall_forall in F. specialize (F u I). lia.
Qed.

Lemma register_then_me_witness :
  outcome_of (me (world_of (register env0 world0 None carol_form)) (Some 3%Z))
  = Response 200
      (PDict [("user",
               PDict [("id", PInt 3); ("name", PStr "Carol");
                      ("email", PStr "carol@example.com");
                      ("role", PStr "customer"); ("photo_url", PNone)])]).
Proof.
  assert (F : Forall (fun u => (u_id u < users_auto_inc (db world0))%Z)
                (users (db world0))) by (repeat constructor).
  assert (Nz : users_auto_inc (db world0) <> 0%Z) by discriminate.
  exact (register_then_me env0 world0
           (world_of (register env0 world0 None carol_form)) None (Some 3%Z)
           carol_form eq_refl F Nz).
Defined.

(** After an accepted login, [me] with the new session shows a row of
    [users] whose email is the stripped, lower-cased address sent and
    whose hash verifies the password sent (given that the ids of the
    table are distinct and none is 0). *)
Theorem login_then_me `{Text} `{PasswordHasher} (w w' : world) (s s' : session)
    (data : login_data) :
  login w s data = (Response 200 ok, w', s') ->
  unique_user_ids (db w) ->
  Forall (fun u => u_id u <> 0%Z) (users (db w)) ->
  exists row,
    In row (users (db w))
    /\ login_email data = inr (u_email row)
    /\ check_password_hash (u_password_hash row) (login_password data) = inr true
    /\ s' = Some (u_id row)
    /\ outcome_of (me w' s') = Response 200 (PDict [("user", row_to_user (Some row))]).
Proof.
  unfold login, login_password. intros L U Nz.
  destruct (login_email data) as [ex|email]; [discriminate|].
  destruct (select_user_by_email _ _) as [row|] eqn:Sel; [|discriminate].
  destruct (check_password_hash _ _) as [ex|[|]] eqn:C; simpl in L;
    try discriminate.
  injection L as <- <-.
  apply select_by_email_some in Sel. destruct Sel as [I E].
  exists row. repeat split; auto; [now rewrite E|].
  unfold me, outcome_of. simpl.
  rewrite Forall_forall in Nz. specialize (Nz row I).
  apply Z.eqb_neq in Nz. rewrite Nz. simpl.
  unfold select_user_by_id. now rewrite (select_by_id_unique _ _ U I).
Qed.

Lemma login_then_me_witness :
  exists row,
    In row (users db0)
    /\ login_email alice_login = inr (u_email row)
    /\ toy_check (u_password_hash row) (PStr "secret") = inr true
    /\ Some 1%Z = Some (u_id row)
    /\ outcome_of (me world0 (Some 1%Z))
       = Response 200 (PDict [("user", row_to_user (Some row))]).
Proof.
  assert (U : unique_user_ids (db world0)).
  { unfold unique_user_ids. simpl.
    repeat constructor; simpl; intuition discriminate. }
  assert (Nz : Forall (fun u => u_id u <> 0%Z) (users (db world0))).
  { repeat constructor; discriminate. }
  exact (login_then_me world0 world0 None (Some 1%Z) alice_login eq_refl U Nz).
Defined.

(** *** What the session endpoints show *)

Lemma row_to_user_find (uid : Z) (l l' : list user) :
  Forall2 same_public l l' ->
  row_to_user (find (fun u => (u_id u =? uid)%Z) l)
  = row_to_user (find (fun u => (u_id u =? uid)%Z) l').
Proof.
  induction 1 as [|u u' l l' (Ei & En & Ee & Er & Ep) F IH]; simpl; [reflexivity|].
  rewrite Ei. destruct (u_id u =? uid)%Z; [|exact IH].
  simpl. now rewrite Ei, En, Ee, Er, Ep.
Qed.

(** What [me] and the GET of [profile] answer does not depend on the
    password hashes in the table. *)
Theorem me_independent_of_hashes (w w' : world) (s : session) :
  Forall2 same_public (users (db w)) (users (db w')) ->
  outcome_of (me w s) = outcome_of (me w' s)
  /\ outcome_of (profile_get w s) = outcome_of (profile_get w' s).
Proof.
  intros F. unfold me, profile_get, outcome_of, select_user_by_id.
  destruct (session_uid s) as [uid|]; simpl; [|auto].
  now rewrite (row_to_user_find uid _ _ F).
Qed.

Lemma me_independent_of_hashes_witness :
  outcome_of (me world0 (Some 1%Z)) = outcome_of (me world0_rehashed (Some 1%Z))
  /\ outcome_of (profile_get world0 (Some 1%Z))
     = outcome_of (profile_get world0_rehashed (Some 1%Z)).
Proof.
  apply (me_independent_of_hashes world0 world0_rehashed (Some 1%Z)).
  repeat constructor.
Defined.

(** Without a user id in the session (no cookie, the session left by
    [logout], or the id 0, which Python takes for false) the profile,
    owner and order endpoints answer 401 and change nothing, and [me]
    shows no user. *)
Theorem no_session_no_access `{Text} `{PasswordHasher} (e : env) (w : world)
    (s : session) (f : profile_form) (rd : restaurant_data) (od : order_data) :
  session_uid s = None ->
  profile_get w s = (Response 401 (error "Not authenticated"), w, s)
  /\ profile_put e w s f = (Response 401 (error "Not authenticated"), w, s)
  /\ owner_add_restaurant w s rd = (Response 401 (error "Not authenticated"), w, s)
  /\ orders_post e w s od = (Response 401 (error "Not authenticated"), w, s)
  /\ (forall res,
        orders_get w s res
        <-> res = ListingRefused (Response 401 (error "Not authenticated")))
  /\ me w s = (Response 200 (PDict [("user", PNone)]), w, s).
Proof.
  intros N.
  unfold profile_get, profile_put, owner_add_restaurant, orders_post, orders_get, me.
  rewrite N. repeat split; auto.
Qed.

Lemma logout_clears_session (w : world) (s : session) :
  session_uid (session_of (logout w s)) = None
  /\ logout w (session_of (logout w s)) = logout w s.
Proof. split; reflexivity. Qed.

Lemma no_session_no_access_witness :
  orders_post env0 world0 (session_of (logout world0 (Some 1%Z)))
    order_with_unknown_item
  = (Response 401 (error "Not authenticated"), world0, None)
  /\ owner_add_restaurant world0 (Some 0%Z) izakaya
     = (Response 401 (error "Not authenticated"), world0, Some 0%Z).
Proof.
  split.
  - apply (no_session_no_access env0 world0 (session_of (logout world0 (Some 1%Z)))
             blank_profile izakaya order_with_unknown_item).
    reflexivity.
  - apply (no_session_no_access env0 world0 (Some 0%Z) blank_profile izakaya
             order_with_unknown_item).
    reflexivity.
Defined.

(** *** Profile updates, seen through the other endpoints *)

Lemma updated_user_same (u : user) :
  updated_user u (mk_profile_form None None None) "" None = u.
Proof. now destruct u. Qed.

(** An update answered with status 200 has written its photo, if it
    carried one, and keeps the session. *)
Lemma profile_put_succeeded `{PasswordHasher} (e : env) (w : world)
    (s : session) (f : profile_form) :
  succeeded (outcome_of (profile_put e w s f)) ->
  photo_save_fails e (pf_photo f) = false
  /\ session_of (profile_put e w s f) = s.
Proof.
  unfold profile_put, outcome_of, session_of.
  destruct (session_uid s); [|intros [body E]; discriminate E].
  destruct (photo_save_fails _ _); [intros [body E]; discriminate E|].
  destruct (save_photo _ _ _). auto.
Qed.

(** The database after an update by the user [uid] whose photo, if any,
    could be written: the user rows rewritten in place, the caller's row
    by [updated_user]. *)
Lemma profile_put_db `{PasswordHasher} (e : env) (w : world)
    (s : session) (uid : Z) (f : profile_form) :
  session_uid s = Some uid ->
  photo_save_fails e (pf_photo f) = false ->
  db (world_of (profile_put e w s f))
  = with_users (db w)
      (map (fun u =>
              if (u_id u =? uid)%Z
              then updated_user u f
                     (generate_password_hash (salt e)
                        (get_default (pf_password f) ""))
                     (fst (save_photo e (pf_photo f) (uploads w)))
              else u)
         (users (db w))).
Proof.
  intros Hs Hph. unfold profile_put, world_of. rewrite Hs, Hph. clear Hph.
  destruct f as [n p ph]. unfold save_photo, updated_user.
  cbn [pf_name pf_password pf_photo].
  destruct ph as [fn|]; [destruct (fn =? "")%string|];
    destruct (str_truthy n); destruct (str_truthy p);
    simpl;
    unfold update_user_photo_url, update_user_password_hash, update_user_name,
      with_users; simpl; rewrite ?map_map;
    first [ f_equal; apply map_ext
          | destruct (db w) as [us rs ms os ois c1 c2 c3]; simpl; f_equal;
            rewrite <- (map_id us) at 1; apply map_ext ];
    intros u;
    destruct (u_id u =? uid)%Z eqn:E; simpl; rewrite ?E; simpl; rewrite ?E;
    try reflexivity; now destruct u.
Qed.

Lemma profile_put_users_map `{PasswordHasher} (e : env) (w : world)
    (s : session) (uid : Z) (f : profile_form) :
  session_uid s = Some uid ->
  photo_save_fails e (pf_photo f) = false ->
  users (db (world_of (profile_put e w s f)))
  = map (fun u =>
           if (u_id u =? uid)%Z
           then updated_user u f
                  (generate_password_hash (salt e) (get_default (pf_password f) ""))
                  (fst (save_photo e (pf_photo f) (uploads w)))
           else u)
      (users (db w)).
Proof. intros Hs Hph. now rewrite (profile_put_db e w s uid f Hs Hph). Qed.

(** After a profile update answered with status 200, by a user with a
    row, [me] shows that row with the name, the photo URL replaced where
    a non-empty value was sent, and the id, email and role as they
    were. *)
Theorem profile_put_then_me `{PasswordHasher} (e : env) (w : world)
    (s : session) (uid : Z) (u : user) (f : profile_form) :
  succeeded (outcome_of (profile_put e w s f)) ->
  session_uid s = Some uid ->
  select_user_by_id (db w) uid = Some u ->
  outcome_of (me (world_of (profile_put e w s f)) (session_of (profile_put e w s f)))
  = Response 200
      (PDict [("user",
               row_to_user
                 (Some (updated_user u f
                          (generate_password_hash (salt e)
                             (get_default (pf_password f) ""))
                          (fst (save_photo e (pf_photo f) (uploads w))))))]).
Proof.
  intros Ok Hs Hu.
  destruct (profile_put_succeeded e w s f Ok) as [Hph Es].
  rewrite Es. unfold me, outcome_of. rewrite Hs. simpl.
  unfold select_user_by_id in *.
  rewrite (profile_put_users_map e w s uid f Hs Hph).
  rewrite find_map_preserving.
  - rewrite Hu. simpl. apply find_some in Hu. destruct Hu as [_ E].
    now rewrite E.
  - intros x. destruct (u_id x =? uid)%Z eqn:Ex; simpl; exact Ex.
Qed.

Lemma profile_put_then_me_witness :
  outcome_of (me (world_of (profile_put env0 world0 (Some 1%Z) rename_to_al))
                (session_of (profile_put env0 world0 (Some 1%Z) rename_to_al)))
  = Response 200
      (PDict [("user",
               PDict [("id", PInt 1); ("name", PStr "Al");
                      ("email", PStr "alice@example.com");
                      ("role", PStr "customer"); ("photo_url", PNone)])]).
Proof.
  apply (profile_put_then_me env0 world0 (Some 1%Z) 1%Z alice rename_to_al).
  - eexists. reflexivity.
  - reflexivity.
  - reflexivity.
Defined.

(** After a profile update answered with status 200 that carries a
    non-empty password, a login with the caller's address and that
    password is accepted (given that the hash made for the password
    verifies it). *)
Theorem change_password_then_login `{Text} `{PasswordHasher} (e : env) (w : world)
    (s s0 : session) (uid : Z) (u : user) (f : profile_form) (p email : string)
    (data : login_data) :
  succeeded (outcome_of (profile_put e w s f)) ->
  session_uid s = Some uid ->
  pf_password f = Some p ->
  p <> "" ->
  login_email data = inr email ->
  select_user_by_email (db w) email = Some u ->
  u_id u = uid ->
  ld_password data = PStr p ->
  check_password_hash (generate_password_hash (salt e) p) (PStr p) = inr true ->
  login (world_of (profile_put e w s f)) s0 data
  = (Response 200 ok, world_of (profile_put e w s f), Some uid).
Proof.
  intros Ok Hs Hp Np He Hu Hid Hd Hc.
  destruct (profile_put_succeeded e w s f Ok) as [Hph _].
  unfold login, select_user_by_email in *. rewrite He.
  rewrite (profile_put_users_map e w s uid f Hs Hph).
  rewrite find_map_preserving.
  - rewrite Hu. simpl. apply Z.eqb_eq in Hid. rewrite Hid.
    unfold updated_user; simpl. rewrite Hp, Hd; simpl.
    unfold py_or; simpl.
    apply String.eqb_neq in Np. rewrite Np; simpl. rewrite Hc; simpl.
    apply Z.eqb_eq in Hid. now rewrite Hid.
  - intros x. destruct (u_id x =? uid)%Z; reflexivity.
Qed.

Lemma change_password_then_login_witness :
  login (world_of (profile_put env0 world0 (Some 1%Z) new_password)) None
    alice_new_login
  = (Response 200 ok, world_of (profile_put env0 world0 (Some 1%Z) new_password),
     Some 1%Z).
Proof.
  apply (change_password_then_login env0 world0 (Some 1%Z) None 1%Z alice
           new_password "tiger" "alice@example.com" alice_new_login);
    try reflexivity.
  - eexists. reflexivity.
  - discriminate.
Defined.

End Accounts.

(** ** The store under every request *)

Module Integrity.
Import Py Db App Props Samples Views Router Notions Cases.

Lemma effect_none (d : database) : effect d d.
Proof. apply RowsKept; unfold same_tables; auto. lia. Qed.

Lemma rows_of_order `{Text} (d : database) (order_id : Z) (ls : list line)
    (rows : list order_item) :
  Forall2 (row_of_line d order_id) ls rows ->
  Forall (fun i => oi_order_id i = order_id) rows.
Proof. induction 1 as [|l r ls rs (E & _) F IH]; constructor; auto. Qed.

(** Every request leaves the database in one of the five ways of
    [effect]. *)
Lemma request_effect `{Text} `{PasswordHasher} (r : request) (e : env) (w : world)
    (s : session) :
  effect (db w) (db (world_of (handle r e w s))).
Proof.
  destruct r as [f|data| | |m f|data|data]; unfold handle, world_of.
  - (* register *)
    unfold register. cbv zeta.
    destruct (_ || _ || _ || _)%bool; [apply effect_none|].
    destruct (photo_save_fails _ _); [apply effect_none|].
    destruct (save_photo _ _ _) as [photo_url files].
    destruct (select_user_by_email _ _) eqn:Sel; simpl; [apply effect_none|].
    apply UserAdded; [reflexivity|].
    simpl. now apply Accounts.select_by_email_none.
  - (* login *)
    unfold login. destruct (login_email data); [apply effect_none|].
    destruct (select_user_by_email _ _); [|apply effect_none].
    destruct (check_password_hash _ _) as [ex|[|]]; apply effect_none.
  - apply effect_none.
  - unfold me. destruct (session_uid s); apply effect_none.
  - (* profile *)
    destruct m; unfold profile.
    + unfold profile_get. destruct (session_uid s); apply effect_none.
    + destruct (session_uid s) as [uid|] eqn:Hs.
      * destruct (photo_save_fails e (pf_photo f)) eqn:Hph.
        -- unfold profile_put. rewrite Hs, Hph. apply effect_none.
        -- pose proof (Accounts.profile_put_db e w s uid f Hs Hph) as E.
           unfold world_of in E. rewrite E.
           apply UsersRewritten. intros u.
           now destruct (u_id u =? uid)%Z.
      * unfold profile_put. rewrite Hs. apply effect_none.
  - (* owner_add_restaurant *)
    unfold owner_add_restaurant.
    destruct (session_uid s) as [uid|]; [|apply effect_none].
    destruct (select_user_by_id _ _) as [row|]; [|apply effect_none].
    destruct (negb _); [apply effect_none|].
    destruct (_ =? "")%string; [apply effect_none|].
    simpl. now apply RestaurantAdded.
  - (* orders_post *)
    unfold orders_post.
    destruct (session_uid s) as [uid|]; [|apply effect_none].
    destruct (od_items data) as [|it rest]; [apply effect_none|].
    cbv zeta. unfold insert_order at 1.
    destruct (add_order_items _ _ _) as [ex|d2] eqn:Ed; simpl.
    + apply RowsKept; unfold same_tables; simpl; auto. lia.
    + destruct (Orders.add_order_items_inr _ _ _ _ Ed) as (rows & -> & F).
      unfold with_order_items; simpl.
      apply (OrderAdded (db w) (mk_order (orders_auto_inc (db w)) uid "pending"
                                  (sql_now e)) rows);
        [reflexivity|].
      simpl. eapply rows_of_order. exact F.
Qed.

(** *** Keys *)

Lemma NoDup_snoc {A : Type} (l : list A) (x : A) :
  NoDup l -> ~ In x l -> NoDup (l ++ [x]).
Proof.
  intros N I. eapply Permutation_NoDup; [apply Permutation_cons_append|].
  now constructor.
Qed.

Lemma below_not_in {A : Type} (f : A -> Z) (c : Z) (l : list A) :
  Forall (fun a => (f a < c)%Z) l -> ~ In c (map f l).
Proof.
  intros F I. apply in_map_iff in I. destruct I as (a & E & I).
  rewrite Forall_forall in F. specialize (F a I). lia.
Qed.

Lemma below_snoc {A : Type} (f : A -> Z) (c : Z) (l : list A) (x : A) :
  Forall (fun a => (f a < c)%Z) l -> f x = c ->
  Forall (fun a => (f a < c + 1)%Z) (l ++ [x]).
Proof.
  intros F E. apply Forall_app. split.
  - eapply Forall_impl; [|exact F]. simpl. intros; lia.
  - repeat constructor. lia.
Qed.

Lemma effect_consistent (d d' : database) :
  effect d d' -> consistent d -> consistent d'.
Proof.
  intros Ef (Ue & Ui & Ur & Uo & Fu & Fr & Fo).
  destruct Ef as [d' (Eu & Er & _ & Eo & _) Cu Cr Co
                 |row Ei Ee|g Hg|row Ei|row rows Ei _];
    unfold consistent, unique_emails, unique_user_ids, fresh_ids; simpl.
  - rewrite Eu, Er, Eo, Cu, Cr. repeat split; auto.
    eapply Forall_impl; [|exact Fo]. simpl. intros; lia.
  - rewrite !map_app. simpl. repeat split; auto.
    + now apply NoDup_snoc.
    + apply NoDup_snoc; [exact Ui|]. rewrite Ei. now apply below_not_in.
    + now apply below_snoc.
  - assert (Em : map u_email (map g (users d)) = map u_email (users d)).
    { rewrite map_map. apply map_ext. intros u.
      specialize (Hg u). unfold identity in Hg. congruence. }
    assert (Im : map u_id (map g (users d)) = map u_id (users d)).
    { rewrite map_map. apply map_ext. intros u.
      specialize (Hg u). unfold identity in Hg. congruence. }
    rewrite Em, Im. repeat split; auto.
    apply Forall_map. eapply Forall_impl; [|exact Fu]. simpl.
    intros u L. specialize (Hg u). unfold identity in Hg.
    replace (u_id (g u)) with (u_id u) by congruence. exact L.
  - rewrite !map_app. simpl. repeat split; auto.
    + apply NoDup_snoc; [exact Ur|]. rewrite Ei. now apply below_not_in.
    + now apply below_snoc.
  - rewrite !map_app. simpl. repeat split; auto.
    + apply NoDup_snoc; [exact Uo|]. rewrite Ei. now apply below_not_in.
    + now apply below_snoc.
Qed.

(** No series of requests breaks the keys: from a consistent database,
    emails and ids stay unique and below their counters, whatever the
    requests, their sessions and their outcomes. *)
Theorem run_keeps_consistent `{Text} `{PasswordHasher}
    (calls : list (env * session * request)) (w : world) :
  consistent (db w) -> consistent (db (run calls w)).
Proof.
  revert w. induction calls as [|[[e s] r] rest IH]; intros w C; simpl.
  - exact C.
  - apply IH. eapply effect_consistent; [|exact C].
    apply (request_effect r e w s).
Qed.

Lemma db0_consistent : consistent db0.
Proof.
  unfold consistent, unique_emails, unique_user_ids, fresh_ids; simpl.
  repeat split; repeat constructor; simpl; try lia; intuition discriminate.
Qed.

Lemma run_keeps_consistent_witness : consistent (db (run busy_day world0)).
Proof. apply (run_keeps_consistent busy_day world0). exact db0_consistent. Defined.

(** *** Refused requests *)

(** A request that is not answered with status 200 changes no row of
    any table, and leaves the session as it was. *)
Theorem refused_request_keeps_rows `{Text} `{PasswordHasher} (r : request) (e : env)
    (w : world) (s : session) :
  ~ succeeded (outcome_of (handle r e w s)) ->
  same_tables (db w) (db (world_of (handle r e w s)))
  /\ session_of (handle r e w s) = s.
Proof.
  destruct (handle r e w s) as [[out w'] s'] eqn:E.
  unfold outcome_of, world_of, session_of; simpl. intros N.
  assert (Y : forall body, out = Response 200 body -> False).
  { intros body ->. apply N. now exists body. }
  assert (K : forall d, same_tables d d) by (unfold same_tables; auto).
  revert E. destruct r as [f|data| | |m f|data|data]; unfold handle.
  - unfold register. cbv zeta.
    destruct (_ || _ || _ || _)%bool; [intros [= <- <- <-]; auto|].
    destruct (photo_save_fails _ _); [intros [= <- <- <-]; auto|].
    destruct (save_photo _ _ _) as [photo_url files].
    destruct (select_user_by_email _ _); intros [= <- <- <-]; simpl; [auto|].
    now destruct (Y ok).
  - unfold login.
    destruct (login_email data); [intros [= <- <- <-]; auto|].
    destruct (select_user_by_email _ _); [|intros [= <- <- <-]; auto].
    destruct (check_password_hash _ _) as [ex|[|]]; intros [= <- <- <-]; simpl;
      auto.
    now destruct (Y ok).
  - intros [= <- <- <-]. now destruct (Y ok).
  - unfold me. destruct (session_uid s); intros [= <- <- <-];
      now destruct (Y _ eq_refl).
  - destruct m; unfold profile, profile_get, profile_put;
      (destruct (session_uid s); [|intros [= <- <- <-]; auto]).
    + intros [= <- <- <-]. now destruct (Y _ eq_refl).
    + destruct (photo_save_fails _ _); [intros [= <- <- <-]; auto|].
      destruct (save_photo _ _ _). intros [= <- <- <-].
      now destruct (Y _ eq_refl).
  - unfold owner_add_restaurant.
    destruct (session_uid s) as [uid|]; [|intros [= <- <- <-]; auto].
    destruct (select_user_by_id _ _) as [row|]; [|intros [= <- <- <-]; auto].
    destruct (negb _); [intros [= <- <- <-]; auto|].
    destruct (_ =? "")%string; intros [= <- <- <-]; [auto|].
    now destruct (Y _ eq_refl).
  - unfold orders_post.
    destruct (session_uid s) as [uid|]; [|intros [= <- <- <-]; auto].
    destruct (od_items data) as [|it rest]; [intros [= <- <- <-]; auto|].
    cbv zeta. unfold insert_order.
    destruct (add_order_items _ _ _) as [ex|d2]; intros [= <- <- <-].
    + unfold same_tables; simpl. repeat split.
    + now destruct (Y _ eq_refl).
Qed.

Lemma refused_request_keeps_rows_witness :
  same_tables db0
    (db (world_of (handle (PlaceOrder order_bad_quantity) env0 world0 (Some 1%Z))))
  /\ session_of (handle (PlaceOrder order_bad_quantity) env0 world0 (Some 1%Z))
     = Some 1%Z.
Proof.
  apply (refused_request_keeps_rows (PlaceOrder order_bad_quantity) env0 world0
           (Some 1%Z)).
  intros [body E]. discriminate E.
Defined.

(** *** Rows once written *)

Lemma extends_refl {A : Type} (l : list A) : extends l l.
Proof. exists []. now rewrite app_nil_r. Qed.

Lemma extends_trans {A : Type} (l1 l2 l3 : list A) :
  extends l1 l2 -> extends l2 l3 -> extends l1 l3.
Proof. intros [a ->] [b ->]. exists (a ++ b). now rewrite app_assoc. Qed.

Lemma extends_app {A : Type} (l rest : list A) : extends l (l ++ rest).
Proof. now exists rest. Qed.

Lemma effect_appends (d d' : database) :
  effect d d' ->
  menu_items d' = menu_items d
  /\ extends (restaurants d) (restaurants d')
  /\ extends (orders d) (orders d')
  /\ extends (order_items d) (order_items d')
  /\ extends (map identity (users d)) (map identity (users d')).
Proof.
  intros [d'' (Eu & Er & Em & Eo & Ei) _ _ _|row _ _|g Hg|row _|row rows _ _];
    simpl.
  - rewrite Eu, Er, Em, Eo, Ei. repeat split; apply extends_refl.
  - rewrite map_app. repeat split; try apply extends_refl. apply extends_app.
  - rewrite map_map, (map_ext _ _ Hg). repeat split; apply extends_refl.
  - repeat split; try apply extends_refl. apply extends_app.
  - repeat split; try apply extends_refl; apply extends_app.
Qed.

(** No series of requests removes or rewrites what the store holds,
    passwords, names and photos of users apart: [menu_items] stays as it
    is; [restaurants], [orders] and [order_items] keep their rows, in
    place, and only grow at the end; so do the accounts, each with its
    id, its email and its role. *)
Theorem store_only_grows `{Text} `{PasswordHasher}
    (calls : list (env * session * request)) (w : world) :
  menu_items (db (run calls w)) = menu_items (db w)
  /\ extends (restaurants (db w)) (restaurants (db (run calls w)))
  /\ extends (orders (db w)) (orders (db (run calls w)))
  /\ extends (order_items (db w)) (order_items (db (run calls w)))
  /\ extends (map identity (users (db w)))
       (map identity (users (db (run calls w)))).
Proof.
  revert w. induction calls as [|[[e s] r] rest IH]; intros w; simpl.
  - repeat split; apply extends_refl.
  - destruct (IH (snd (fst (handle r e w s)))) as (M & R & O & I & U).
    destruct (effect_appends _ _ (request_effect r e w s))
      as (M' & R' & O' & I' & U').
    unfold world_of in *. rewrite M, M'.
    repeat split; eapply extends_trans; eassumption.
Qed.

End Integrity.

(** ** Decimal numerals: [str(z)] *)

Module Numerals.
Import Py Db App Props Views Router Notions.

Lemma numeral_char_not_underscore (c : ascii) : numeral_char c -> c <> "_"%char.
Proof.
  intros [[d E]| ->]; [|discriminate].
  intros ->. discriminate E.
Qed.

Lemma uint_chars (u : Decimal.uint) (c : ascii) :
  In c (list_ascii_of_string (NilEmpty.string_of_uint u)) -> numeral_char c.
Proof.
  induction u; simpl; try contradiction;
    (intros [<-|I]; [left; eexists; reflexivity | now apply IHu]).
Qed.

Lemma str_of_int_chars (z : Z) (c : ascii) :
  In c (list_ascii_of_string (str_of_int z)) -> numeral_char c.
Proof.
  unfold str_of_int.
  destruct z as [|p|p]; simpl.
  - intros [<-|[]]. left. eexists. reflexivity.
  - pose proof (DecimalPos.Unsigned.to_uint_nonnil p) as N.
    destruct (Pos.to_uint p) eqn:E; try contradiction; rewrite <- E;
      unfold NilZero.string_of_uint; rewrite E; rewrite <- E; apply uint_chars.
  - pose proof (DecimalPos.Unsigned.to_uint_nonnil p) as N.
    intros [<-|I]; [now right|]. revert I.
    destruct (Pos.to_uint p) eqn:E; try contradiction; rewrite <- E;
      unfold NilZero.string_of_uint; rewrite E; rewrite <- E; apply uint_chars.
Qed.

Lemma to_int_not_nil (z : Z) :
  Z.to_int z <> Decimal.Pos Decimal.Nil /\ Z.to_int z <> Decimal.Neg Decimal.Nil.
Proof.
  destruct z as [|p|p]; simpl; split; try discriminate;
    intros [= E]; exact (DecimalPos.Unsigned.to_uint_nonnil p E).
Qed.

(** Two integers with the same print are the same. *)
Lemma str_of_int_inj (a b : Z) : str_of_int a = str_of_int b -> a = b.
Proof.
  unfold str_of_int. intros E. apply DecimalZ.to_int_inj.
  destruct (to_int_not_nil a) as [A1 A2]. destruct (to_int_not_nil b) as [B1 B2].
  pose proof (NilZero.isi _ A1 A2) as Ia. rewrite E, (NilZero.isi _ B1 B2) in Ia.
  now injection Ia.
Qed.

End Numerals.

(** ** Listings: restaurants and menus *)

Module Catalogue.
Import Py Db App Props Samples Views Router Notions Cases.

(** *** [sort_with] *)

Lemma insert_sorted_perm {A : Type} (leb : A -> A -> bool) (x : A) (l : list A) :
  Permutation (x :: l) (insert_sorted leb x l).
Proof.
  induction l as [|y l IH]; simpl; [apply Permutation_refl|].
  destruct (leb x y); [apply Permutation_refl|].
  eapply perm_trans; [apply perm_swap | now apply perm_skip].
Qed.

Lemma insert_sorted_sorted {A : Type} (leb : A -> A -> bool) (x : A) (l : list A) :
  (forall a b, leb a b = true \/ leb b a = true) ->
  Sorted (fun a b => leb a b = true) l ->
  Sorted (fun a b => leb a b = true) (insert_sorted leb x l).
Proof.
  intros T. induction 1 as [|y l S IH Hd]; simpl; [repeat constructor|].
  destruct (leb x y) eqn:E.
  - repeat constructor; assumption.
  - constructor; [exact IH|].
    assert (Eyx : leb y x = true) by (destruct (T x y); congruence).
    destruct l as [|z l]; simpl; [now constructor|].
    destruct (leb x z); constructor; [exact Eyx | now inversion Hd].
Qed.

Lemma sort_with_sorted {A : Type} (leb : A -> A -> bool) (l : list A) :
  (forall a b, leb a b = true \/ leb b a = true) ->
  Permutation l (sort_with leb l)
  /\ Sorted (fun a b => leb a b = true) (sort_with leb l).
Proof.
  intros T. induction l as [|x l [P S]]; simpl; [split; constructor|].
  split.
  - eapply perm_trans; [apply perm_skip, P | apply insert_sorted_perm].
  - now apply insert_sorted_sorted.
Qed.

(** *** [LIKE] *)

Lemma like_percent_step (p t : string) :
  like (String "%" p) t
  = (like p t
     || match t with
        | EmptyString => false
        | String _ t' => like (String "%" p) t'
        end)%bool.
Proof. destruct t; reflexivity. Qed.

Lemma like_percent (p t : string) :
  like (String "%" p) t = true
  <-> exists a b, t = (a ++ b)%string /\ like p b = true.
Proof.
  induction t as [|x t IH]; rewrite like_percent_step.
  - rewrite orb_false_r. split.
    + intros L. now exists "", "".
    + intros (a & b & E & L). destruct a; [|discriminate]. simpl in E. now subst.
  - rewrite orb_true_iff, IH. split.
    + intros [L|(a & b & -> & L)].
      * now exists "", (String x t).
      * now exists (String x a), b.
    + intros (a & b & E & L). destruct a as [|y a]; simpl in E.
      * left. now subst.
      * right. injection E as -> ->. now exists a, b.
Qed.

Lemma like_plain_char (c : ascii) (p t : string) :
  wildcard_free (String c "") = true ->
  like (String c p) t
  = match t with
    | EmptyString => false
    | String x t' => (Ascii.eqb c x && like p t')%bool
    end.
Proof.
  simpl. rewrite andb_true_r, !andb_true_iff, !negb_true_iff.
  intros [[E1 E2] E3]. now rewrite E1, E2, E3.
Qed.

Lemma like_literal (q : string) :
  wildcard_free q = true ->
  forall p t,
    like (q ++ p) t = true <-> exists t', t = (q ++ t')%string /\ like p t' = true.
Proof.
  induction q as [|c q IH]; intros W p t.
  - simpl. split; [intros L; now exists t | now intros (t' & -> & L)].
  - simpl in W. apply andb_true_iff in W. destruct W as [Wc Wq].
    change (String c q ++ p)%string with (String c (q ++ p)).
    rewrite like_plain_char by (simpl; now rewrite Wc).
    destruct t as [|x t].
    + split; [discriminate | intros (t' & E & _); discriminate].
    + rewrite andb_true_iff, (IH Wq). split.
      * intros [E (t' & -> & L)]. apply Ascii.eqb_eq in E. subst.
        now exists t'.
      * intros (t' & E & L). injection E as -> ->.
        split; [apply Ascii.eqb_refl | now exists t'].
Qed.

(** With no wildcard in [q], the pattern [%q%] matches the texts [q]
    occurs in. *)
Lemma like_contains (q t : string) :
  wildcard_free q = true ->
  like ("%" ++ q ++ "%") t = true <-> occurs_in q t.
Proof.
  intros W. change ("%" ++ q ++ "%")%string with (String "%" (q ++ "%")).
  rewrite like_percent. unfold occurs_in. split.
  - intros (a & b & -> & L). apply (like_literal q W) in L.
    destruct L as (t' & -> & _). now exists a, t'.
  - intros (a & b & ->). exists a, (q ++ b)%string. split; [reflexivity|].
    apply (like_literal q W). exists b. split; [reflexivity|].
    apply like_percent. exists b, "". split; [|reflexivity].
    clear. induction b; simpl; congruence.
Qed.

(** *** Parameters that count as not given *)

Lemma given_inactive (v : option string) (sentinel : string) :
  inactive v sentinel -> given v sentinel = false.
Proof.
  unfold given. intros [->|[->| ->]]; simpl; try reflexivity.
  rewrite String.eqb_refl. apply andb_false_r.
Qed.

Lemma filter_all {A : Type} (l : list A) : filter (fun _ => true) l = l.
Proof. induction l; simpl; congruence. Qed.

(** A search whose parameters are all absent, empty or the "All ..."
    value of their list (a [q] of white space included) selects every
    restaurant. *)
Theorem inactive_filters_select_everything `{Text} `{SqlText} (w : world) (a : search_args)
    (rows : list restaurant) :
  strip (str_or (sa_q a) "") = "" ->
  inactive (sa_area a) "All Areas" ->
  inactive (sa_cuisine a) "All Cuisines" ->
  inactive (sa_price a) "All Prices" ->
  list_restaurants_rows w a rows <-> order_by_name (restaurants (db w)) rows.
Proof.
  intros Q A C P.
  assert (E : search_clauses a = []).
  { unfold search_clauses. rewrite Q, lower_empty.
    now rewrite (given_inactive _ _ A), (given_inactive _ _ C),
      (given_inactive _ _ P). }
  unfold list_restaurants_rows, select_restaurants. rewrite E. simpl.
  now rewrite filter_all.
Qed.

Lemma inactive_filters_select_everything_witness :
  list_restaurants_rows world0 all_sentinels
    [sakura_shibuya; sakura_osaka; trattoria].
Proof.
  apply (inactive_filters_select_everything world0 all_sentinels).
  - reflexivity.
  - right. right. reflexivity.
  - right. right. reflexivity.
  - right. right. reflexivity.
  - split; [apply Permutation_refl | repeat constructor].
Defined.

(** The [q] parameter alone, when its text has none of [%], [_] and the
    backslash: the result is the restaurants in whose name, lower-cased
    by the database, the [q] stripped and lower-cased by the handler
    occurs. *)
Theorem name_filter_is_substring `{Text} `{SqlText} (w : world) (a : search_args)
    (rows : list restaurant) (r : restaurant) :
  lower (strip (str_or (sa_q a) "")) <> "" ->
  wildcard_free (lower (strip (str_or (sa_q a) ""))) = true ->
  inactive (sa_area a) "All Areas" ->
  inactive (sa_cuisine a) "All Cuisines" ->
  inactive (sa_price a) "All Prices" ->
  list_restaurants_rows w a rows ->
  In r rows
  <-> In r (restaurants (db w))
      /\ occurs_in (lower (strip (str_or (sa_q a) ""))) (sql_lower (r_name r)).
Proof.
  intros Q W A C P [Pm _].
  assert (E : search_clauses a
              = [NameLike ("%" ++ lower (strip (str_or (sa_q a) "")) ++ "%")]).
  { unfold search_clauses. apply String.eqb_neq in Q. rewrite Q.
    now rewrite (given_inactive _ _ A), (given_inactive _ _ C),
      (given_inactive _ _ P). }
  unfold select_restaurants in Pm. rewrite E in Pm.
  rewrite <- (like_contains _ _ W). split.
  - intros I. apply (Permutation_in _ (Permutation_sym Pm)) in I.
    apply filter_In in I. destruct I as [I L]. simpl in L.
    rewrite andb_true_r in L. now split.
  - intros [I L]. apply (Permutation_in _ Pm). apply filter_In.
    split; [exact I|]. simpl. now rewrite andb_true_r.
Qed.

Lemma name_filter_is_substring_witness :
  In sakura_osaka [sakura_shibuya; sakura_osaka]
  <-> In sakura_osaka (restaurants (db world0))
      /\ occurs_in "sak" (sql_lower (r_name sakura_osaka)).
Proof.
  assert (Q : lower (strip (str_or (sa_q by_name_sak) "")) <> "") by discriminate.
  assert (L : list_restaurants_rows world0 by_name_sak
                [sakura_shibuya; sakura_osaka])
    by (split; [apply Permutation_refl | repeat constructor]).
  exact (name_filter_is_substring world0 by_name_sak
           [sakura_shibuya; sakura_osaka] sakura_osaka Q eq_refl
           (or_introl eq_refl) (or_introl eq_refl) (or_introl eq_refl) L).
Defined.

(** *** A new restaurant in the search *)

(** After an owner has added a restaurant, its row is the last of
    [restaurants], with the returned id, the caller as owner, the
    stripped texts, the yen sign for a missing price level and the
    truthiness of [halal]; every search whose conditions it meets returns
    it, and the restaurants there were are found as before. *)
Theorem add_restaurant_then_search `{Text} `{SqlText} (w w' : world) (s s' : session)
    (data : restaurant_data) (id : Z) (a : search_args)
    (rows : list restaurant) :
  owner_add_restaurant w s data
  = (Response 200 (PDict [("ok", PBool true); ("restaurant_id", PInt id)]), w', s') ->
  list_restaurants_rows w' a rows ->
  exists uid,
    session_uid s = Some uid
    /\ let row :=
         mk_restaurant id uid (strip (str_or (rd_name data) ""))
           (strip (str_or (rd_area data) "")) (strip (str_or (rd_cuisine data) ""))
           (strip (str_or (rd_price_level data) yen)) (truthy (rd_halal data))
           (rd_image_url data) in
       id = restaurants_auto_inc (db w)
       /\ restaurants (db w') = restaurants (db w) ++ [row]
       /\ (forallb (fun c => clause_holds c row) (search_clauses a) = true ->
           In row rows)
       /\ (forall r,
             In r (restaurants (db w)) ->
             forallb (fun c => clause_holds c r) (search_clauses a) = true ->
             In r rows).
Proof.
  unfold owner_add_restaurant.
  destruct (session_uid s) as [uid|]; [|discriminate].
  destruct (select_user_by_id _ _) as [urow|]; [|discriminate].
  destruct (negb _); [discriminate|].
  destruct (_ =? "")%string; [discriminate|].
  unfold insert_restaurant. intros E. injection E as <- <- <-.
  intros [Pm _]. unfold select_restaurants in Pm. simpl in Pm.
  exists uid. split; [reflexivity|]. cbv zeta.
  split; [reflexivity|]. split; [reflexivity|]. split.
  - intros M. apply (Permutation_in _ Pm). apply filter_In. split; [|exact M].
    apply in_or_app. right. now left.
  - intros r I M. apply (Permutation_in _ Pm). apply filter_In. split; [|exact M].
    apply in_or_app. now left.
Qed.

Lemma add_restaurant_then_search_witness :
  exists uid,
    session_uid (Some 2%Z) = Some uid
    /\ let row :=
         mk_restaurant 4 uid (strip (str_or (rd_name izakaya) ""))
           (strip (str_or (rd_area izakaya) "")) (strip (str_or (rd_cuisine izakaya) ""))
           (strip (str_or (rd_price_level izakaya) yen)) (truthy (rd_halal izakaya))
           (rd_image_url izakaya) in
       4%Z = restaurants_auto_inc (db world0)
       /\ restaurants (db (world_of (owner_add_restaurant world0 (Some 2%Z) izakaya)))
          = restaurants (db world0) ++ [row]
       /\ (forallb (fun c => clause_holds c row) (search_clauses halal_in_osaka) = true ->
           In row [izakaya_row; sakura_osaka])
       /\ (forall r,
             In r (restaurants (db world0)) ->
             forallb (fun c => clause_holds c r) (search_clauses halal_in_osaka) = true ->
             In r [izakaya_row; sakura_osaka]).
Proof.
  apply (add_restaurant_then_search world0
           (world_of (owner_add_restaurant world0 (Some 2%Z) izakaya))
           (Some 2%Z) (Some 2%Z) izakaya 4%Z halal_in_osaka
           [izakaya_row; sakura_osaka]).
  - reflexivity.
  - split; [apply perm_swap | repeat constructor].
Defined.

(** *** GET /api/menu/<restaurant_id> *)

Lemma menu_name_le_trans : Relations_1.Transitive menu_name_le.
Proof. intros a b c. unfold menu_name_le. apply Restaurants.leb_trans. Qed.

(** A menu listing always has a result. *)
Lemma list_menu_rows_exists (w : world) (restaurant_id : Z) :
  list_menu_rows w restaurant_id
    (sort_with (fun a b => String.leb (m_name a) (m_name b))
       (select_menu (db w) restaurant_id)).
Proof.
  apply (sort_with_sorted (fun a b => String.leb (m_name a) (m_name b))).
  intros a b. apply String.leb_total.
Qed.

(** The menu of a restaurant is exactly the menu items that carry its
    id, each as often as the table holds it, in ascending order of name;
    for an id no menu item carries (an unknown restaurant included) it is
    the empty list. *)
Theorem list_menu_rows_spec (w : world) (restaurant_id : Z)
    (rows : list menu_item) :
  list_menu_rows w restaurant_id rows ->
  (forall m,
     In m rows <-> In m (menu_items (db w)) /\ m_restaurant_id m = restaurant_id)
  /\ List.length rows = List.length (select_menu (db w) restaurant_id)
  /\ StronglySorted menu_name_le rows
  /\ ((forall m, In m (menu_items (db w)) -> m_restaurant_id m <> restaurant_id) ->
      rows = []).
Proof.
  intros [P S]. split; [|split; [|split]].
  - intros m. split.
    + intros I. apply (Permutation_in _ (Permutation_sym P)) in I.
      apply filter_In in I. destruct I as [I E]. apply Z.eqb_eq in E. now split.
    + intros [I E]. apply (Permutation_in _ P). apply filter_In.
      split; [exact I | now apply Z.eqb_eq].
  - symmetry. now apply Permutation_length.
  - apply Sorted_StronglySorted; [exact menu_name_le_trans | exact S].
  - intros None. apply Permutation_nil.
    replace (select_menu (db w) restaurant_id) with (@nil menu_item) in P;
      [exact P|].
    symmetry. unfold select_menu.
    induction (menu_items (db w)) as [|m l IH]; simpl; [reflexivity|].
    destruct (m_restaurant_id m =? restaurant_id)%Z eqn:E.
    + apply Z.eqb_eq in E. exfalso. apply (None m); [now left | exact E].
    + apply IH. intros x I. apply None. now right.
Qed.

Lemma list_menu_rows_spec_witness :
  (forall m,
     In m [gyoza; ramen] <-> In m (menu_items (db world0)) /\ m_restaurant_id m = 1%Z)
  /\ List.length [gyoza; ramen] = List.length (select_menu (db world0) 1)
  /\ StronglySorted menu_name_le [gyoza; ramen]
  /\ ((forall m, In m (menu_items (db world0)) -> m_restaurant_id m <> 1%Z) ->
      [gyoza; ramen] = []).
Proof.
  apply (list_menu_rows_spec world0 1%Z [gyoza; ramen]).
  split; [apply perm_swap | repeat constructor].
Defined.

End Catalogue.

(** ** Orders: listing and quantities *)

Module Ordering.
Import Py Db App Props Samples Views Router Notions Cases.

(** *** GET /api/orders *)

Lemma order_id_ge_trans : Relations_1.Transitive order_id_ge.
Proof. intros a b c. unfold order_id_ge. lia. Qed.

Lemma same_id_same_row (l : list order) (a b : order) :
  NoDup (map o_id l) -> In a l -> In b l -> o_id a = o_id b -> a = b.
Proof.
  induction l as [|x l IH]; simpl; intros N Ia Ib E; [contradiction|].
  inversion N as [|? ? Nx N']; subst.
  destruct Ia as [->|Ia], Ib as [->|Ib]; auto.
  - exfalso. apply Nx. rewrite E. now apply in_map.
  - exfalso. apply Nx. rewrite <- E. now apply in_map.
Qed.

(** Two arrangements of the same rows, both in descending order of id,
    are the same list when no two rows share an id. *)
Lemma descending_unique (l : list order) :
  NoDup (map o_id l) ->
  forall l1 l2,
    Permutation l l1 -> Permutation l l2 ->
    StronglySorted order_id_ge l1 -> StronglySorted order_id_ge l2 ->
    l1 = l2.
Proof.
  intros N l1. revert l N.
  induction l1 as [|a l1 IH]; intros l N l2 P1 P2 S1 S2.
  - apply Permutation_sym, Permutation_nil in P1. subst l.
    now apply Permutation_nil in P2.
  - destruct l2 as [|b l2].
    + apply Permutation_sym, Permutation_nil in P2. subst l.
      apply Permutation_nil in P1. discriminate.
    + assert (P12 : Permutation (a :: l1) (b :: l2))
        by (eapply perm_trans; [apply Permutation_sym, P1 | exact P2]).
      inversion S1 as [|? ? S1' F1]; subst.
      inversion S2 as [|? ? S2' F2]; subst.
      assert (Eab : a = b).
      { apply (same_id_same_row l); auto.
        - apply (Permutation_in _ (Permutation_sym P1)). now left.
        - apply (Permutation_in _ (Permutation_sym P2)). now left.
        - assert (Ib : In b (a :: l1))
            by (apply (Permutation_in _ (Permutation_sym P12)); now left).
          assert (Ia : In a (b :: l2))
            by (apply (Permutation_in _ P12); now left).
          rewrite Forall_forall in F1, F2. unfold order_id_ge in *.
          destruct Ib as [->|Ib]; [reflexivity|].
          destruct Ia as [->|Ia]; [reflexivity|].
          specialize (F1 b Ib). specialize (F2 a Ia). lia. }
      subst b. f_equal.
      apply Permutation_cons_inv in P12.
      assert (N1 : NoDup (map o_id (a :: l1)))
        by (eapply Permutation_NoDup; [apply Permutation_map, P1 | exact N]).
      inversion N1 as [|? ? _ N1']; subst.
      apply (IH l1 N1' l2); auto.
Qed.

Lemma sort_with_sorted_desc (l : list order) :
  Permutation l (sort_with (fun a b => (o_id b <=? o_id a)%Z) l)
  /\ Sorted order_id_ge (sort_with (fun a b => (o_id b <=? o_id a)%Z) l).
Proof.
  destruct (Catalogue.sort_with_sorted (fun a b => (o_id b <=? o_id a)%Z) l)
    as [P S].
  - intros a b. rewrite !Z.leb_le. lia.
  - split; [exact P|].
    eapply Sorted_ind with (P := Sorted order_id_ge); [| |exact S].
    + constructor.
    + intros a l' _ IH Hd. constructor; [exact IH|].
      destruct Hd as [|b l'' Hb]; constructor.
      unfold order_id_ge. now apply Z.leb_le.
Qed.

(** An order listing always has a result: the refusal, or rows. *)
Lemma orders_get_exists (w : world) (s : session) : exists res, orders_get w s res.
Proof.
  unfold orders_get. destruct (session_uid s) as [uid|]; [|now eexists].
  destruct (sort_with_sorted_desc (select_orders (db w) uid)) as [P S].
  eexists. eexists. split; [reflexivity|]. split; [exact P | exact S].
Qed.

Lemma select_orders_keys (d : database) (uid : Z) :
  NoDup (map o_id (orders d)) -> NoDup (map o_id (select_orders d uid)).
Proof.
  unfold select_orders. induction (orders d) as [|o l IH]; simpl; intros N;
    [constructor|].
  inversion N as [|? ? No N']; subst.
  destruct (o_user_id o =? uid)%Z; simpl; [|now apply IH].
  constructor; [|now apply IH].
  intros I. apply No. apply in_map_iff in I. destruct I as (x & E & I).
  apply filter_In in I. rewrite <- E. apply in_map. tauto.
Qed.

(** The listing of a logged-in caller holds exactly the orders of that
    caller, the highest id first; when the ids of the table are distinct
    it is the only result the query can have. *)
Theorem orders_get_listing (w : world) (s : session) (uid : Z)
    (res : orders_listing) :
  session_uid s = Some uid ->
  orders_get w s res ->
  exists rows,
    res = ListingRows rows
    /\ (forall o, In o rows <-> In o (orders (db w)) /\ o_user_id o = uid)
    /\ StronglySorted order_id_ge rows
    /\ (NoDup (map o_id (orders (db w))) ->
        forall res', orders_get w s res' -> res' = res).
Proof.
  intros Hs G. unfold orders_get in *. rewrite Hs in *.
  destruct G as (rows & -> & P & S). exists rows.
  assert (SS : StronglySorted order_id_ge rows)
    by (apply Sorted_StronglySorted; [exact order_id_ge_trans | exact S]).
  split; [reflexivity|]. split; [|split; [exact SS|]].
  - intros o. split.
    + intros I. apply (Permutation_in _ (Permutation_sym P)) in I.
      apply filter_In in I. destruct I as [I E]. apply Z.eqb_eq in E. now split.
    + intros [I E]. apply (Permutation_in _ P). apply filter_In.
      split; [exact I | now apply Z.eqb_eq].
  - intros N res' (rows' & -> & P' & S'). f_equal.
    apply (descending_unique (select_orders (db w) uid)); auto.
    + now apply select_orders_keys.
    + apply Sorted_StronglySorted; [exact order_id_ge_trans | exact S'].
Qed.

Lemma orders_get_listing_witness :
  exists rows,
    ListingRows [mk_order 1 1 "pending" 1700000000] = ListingRows rows
    /\ (forall o, In o rows <-> In o (orders (db world1)) /\ o_user_id o = 1%Z)
    /\ StronglySorted order_id_ge rows
    /\ (NoDup (map o_id (orders (db world1))) ->
        forall res',
          orders_get world1 (Some 1%Z) res' ->
          res' = ListingRows [mk_order 1 1 "pending" 1700000000]).
Proof.
  apply (orders_get_listing world1 (Some 1%Z) 1%Z).
  - reflexivity.
  - eexists. split; [reflexivity|].
    split; [apply Permutation_refl | repeat constructor].
Defined.

(** *** POST then GET *)

Lemma orders_post_success_inv `{Text} (e : env) (w w' : world) (s s' : session)
    (data : order_data) (body : pyval) :
  orders_post e w s data = (Response 200 body, w', s') ->
  exists uid,
    session_uid s = Some uid
    /\ body = PDict [("ok", PBool true); ("order_id", PInt (orders_auto_inc (db w)))]
    /\ orders (db w')
       = orders (db w)
         ++ [mk_order (orders_auto_inc (db w)) uid "pending" (sql_now e)]
    /\ s' = s.
Proof.
  unfold orders_post.
  destruct (session_uid s) as [uid|]; [|discriminate].
  destruct (od_items data) as [|it rest]; [discriminate|].
  cbv zeta. unfold insert_order.
  destruct (add_order_items _ _ _) as [ex|d2] eqn:Ed; [discriminate|].
  intros E. injection E as <- <- <-.
  destruct (Orders.add_order_items_inr _ _ _ _ Ed) as (rows & -> & _).
  exists uid. repeat split.
Qed.

(** After a successful order, the caller's listing starts with the new
    order, status "pending", followed by the listing as it was before
    (the ids of the table are below its counter, as AUTO_INCREMENT keeps
    them). *)
Theorem orders_post_then_get `{Text} (e : env) (w w' : world) (s s' : session)
    (data : order_data) (order_id : Z) (res : orders_listing) :
  orders_post e w s data
  = (Response 200 (PDict [("ok", PBool true); ("order_id", PInt order_id)]), w', s') ->
  Forall (fun o => (o_id o < orders_auto_inc (db w))%Z) (orders (db w)) ->
  orders_get w' s' res ->
  exists uid rest,
    session_uid s = Some uid
    /\ res = ListingRows (mk_order order_id uid "pending" (sql_now e) :: rest)
    /\ orders_get w s (ListingRows rest).
Proof.
  intros Po F G.
  destruct (orders_post_success_inv _ _ _ _ _ _ _ Po) as (uid & Hs & Eb & Eo & ->).
  injection Eb as ->.
  unfold orders_get in *. rewrite Hs in *.
  destruct G as (rows & -> & P & S).
  unfold select_orders in P. rewrite Eo, filter_app in P. simpl in P.
  rewrite Z.eqb_refl in P.
  set (new := mk_order (orders_auto_inc (db w)) uid "pending" (sql_now e)) in *.
  fold (select_orders (db w) uid) in P.
  assert (SS : StronglySorted order_id_ge rows)
    by (apply Sorted_StronglySorted; [exact order_id_ge_trans | exact S]).
  assert (Old : forall o, In o (select_orders (db w) uid) ->
                          (o_id o < o_id new)%Z).
  { intros o I. apply filter_In in I. destruct I as [I _].
    rewrite Forall_forall in F. exact (F o I). }
  destruct rows as [|h rest].
  { apply Permutation_sym, Permutation_nil in P.
    destruct (select_orders (db w) uid); discriminate. }
  assert (Eh : h = new).
  { assert (In_new : In new (h :: rest))
      by (apply (Permutation_in _ P); apply in_or_app; right; now left).
    destruct In_new as [E|I]; [exact E|].
    inversion SS as [|? ? _ Fh]; subst.
    rewrite Forall_forall in Fh. specialize (Fh new I). unfold order_id_ge in Fh.
    assert (Ih : In h (select_orders (db w) uid ++ [new]))
      by (apply (Permutation_in _ (Permutation_sym P)); now left).
    apply in_app_or in Ih. destruct Ih as [Ih|[Ih|[]]]; [|now symmetry].
    specialize (Old h Ih). lia. }
  subst h. exists uid, rest. split; [reflexivity|]. split; [reflexivity|].
  exists rest. split; [reflexivity|]. split.
  - apply (Permutation_cons_inv (a := new)).
    eapply perm_trans; [apply Permutation_cons_append | exact P].
  - now inversion S.
Qed.

Lemma orders_post_then_get_witness :
  exists uid rest,
    session_uid (Some 1%Z) = Some uid
    /\ ListingRows [mk_order 1 1 "pending" 1700000000]
       = ListingRows (mk_order 1 uid "pending" (sql_now env0) :: rest)
    /\ orders_get world0 (Some 1%Z) (ListingRows rest).
Proof.
  apply (orders_post_then_get env0 world0 world1 (Some 1%Z) (Some 1%Z)
           order_with_unknown_item 1%Z).
  - reflexivity.
  - constructor.
  - eexists. split; [reflexivity|].
    split; [apply Permutation_refl | repeat constructor].
Defined.

(** *** Orders without line items *)

(** A request whose lines all name menu items that do not exist is not
    refused: the order row is created and its id returned, and no row is
    added to [order_items]. *)
Theorem order_of_unknown_items `{Text} (e : env) (w : world) (s : session) (uid : Z)
    (data : order_data) :
  session_uid s = Some uid ->
  od_items data <> [] ->
  Forall coerces (od_items data) ->
  Forall (fun it => line_price (db w) it = None) (od_items data) ->
  exists w',
    orders_post e w s data
    = (Response 200
         (PDict [("ok", PBool true); ("order_id", PInt (orders_auto_inc (db w)))]),
       w', s)
    /\ orders (db w')
       = orders (db w)
         ++ [mk_order (orders_auto_inc (db w)) uid "pending" (sql_now e)]
    /\ order_items (db w') = order_items (db w).
Proof.
  intros Hs Hne Hc Hn.
  destruct (Orders.orders_post_skips_unknown_items e w s uid data Hs Hne Hc)
    as (w' & rows & Ep & Eo & Ei & F).
  exists w'. split; [exact Ep|]. split; [exact Eo|].
  assert (Es : surviving (db w) (od_items data) = []).
  { clear - Hn. unfold surviving.
    induction Hn as [|it l Hit Hl IH]; simpl; [reflexivity|].
    rewrite Hit. exact IH. }
  rewrite Es in F. inversion F; subst. rewrite Ei. apply app_nil_r.
Qed.

Lemma order_of_unknown_items_witness :
  exists w',
    orders_post env0 world0 (Some 1%Z) order_only_unknown
    = (Response 200 (PDict [("ok", PBool true); ("order_id", PInt 1)]), w', Some 1%Z)
    /\ orders (db w') = [mk_order 1 1 "pending" 1700000000]
    /\ order_items (db w') = [].
Proof.
  apply (order_of_unknown_items env0 world0 (Some 1%Z) 1%Z order_only_unknown).
  - reflexivity.
  - discriminate.
  - repeat constructor; eexists; reflexivity.
  - repeat constructor.
Defined.

End Ordering.

(** ** Uploaded photos *)

Module Uploads.
Import Py Db App Props Samples Views Router Notions Cases.

Lemma append_split (a a' f f' : string) :
  (forall c, In c (list_ascii_of_string a) -> c <> "_"%char) ->
  (forall c, In c (list_ascii_of_string a') -> c <> "_"%char) ->
  (a ++ String "_" f)%string = (a' ++ String "_" f')%string ->
  a = a' /\ f = f'.
Proof.
  revert a'. induction a as [|c a IH]; intros [|c' a'] Ha Ha' E; simpl in E.
  - injection E as ->. auto.
  - injection E as E _. exfalso. apply (Ha' c'); [now left | now symmetry].
  - injection E as E _. exfalso. apply (Ha c); [now left | exact E].
  - injection E as -> E.
    destruct (IH a') as [-> ->]; auto.
    + intros x I. apply Ha. now right.
    + intros x I. apply Ha'. now right.
Qed.

(** Two uploads are stored under the same name, and get the same
    [photo_url], exactly when they carry the same filename and arrive
    within the same second of the clock. *)
Theorem photo_url_collision (e e' : env) (files files' : list string)
    (filename filename' : string) :
  filename <> "" ->
  filename' <> "" ->
  fst (save_photo e (Some filename) files)
  = fst (save_photo e' (Some filename') files')
  <-> utc_timestamp e = utc_timestamp e' /\ filename = filename'.
Proof.
  intros N N'. unfold save_photo.
  apply String.eqb_neq in N, N'. rewrite N, N'. simpl. split.
  - intros E. injection E as E.
    destruct (append_split _ _ _ _
                (fun c I => Numerals.numeral_char_not_underscore c
                              (Numerals.str_of_int_chars _ c I))
                (fun c I => Numerals.numeral_char_not_underscore c
                              (Numerals.str_of_int_chars _ c I))
                E) as [Et Ef].
    split; [now apply Numerals.str_of_int_inj | exact Ef].
  - intros [-> ->]. reflexivity.
Qed.

Lemma photo_url_collision_witness :
  fst (save_photo env0 (Some "me.png") [])
  = fst (save_photo env0 (Some "me.png") ["1700000000_me.png"])
  <-> utc_timestamp env0 = utc_timestamp env0 /\ "me.png" = "me.png".
Proof.
  apply (photo_url_collision env0 env0 [] ["1700000000_me.png"] "me.png" "me.png");
    discriminate.
Defined.

End Uploads.
